(** * Soledad: key lifecycle manager and serialized store proxy

    A shallow embedding of [src/__init__.py] (class [Soledad], class
    [SoledadClient]) and of [src/leap/soledad/dbwrapper.py] (class
    [SQLCipherWrapper]), followed by the properties of the specification
    that were checked against it.

    Python objects are records whose optional fields stand for attributes
    that may not have been bound yet (reading one raises [AttributeError]);
    methods are computations in a state-and-exception monad over the object
    and the outside world (file system, GnuPG keyring, call log).  The
    collaborators that are not part of these two files (GnuPG wrapper, the
    HTTP client base class, [hmac], [random], [configparser], the store
    behind the proxy) are interfaces, given as type classes. *)

From Stdlib Require Import String Ascii List Bool Arith Lia.
From stdpp Require Import base option gmap strings.
Import ListNotations.
Local Open Scope string_scope.

(** ** Python basics shared by both files *)

Module Py.

(** The exceptions that the two source files raise themselves or let
    escape.  All of them derive from [Exception], so a bare
    [except Exception] catches every constructor. *)
Inductive exn : Type :=
| KeyDoesNotExist
| KeyAlreadyExists
| DocumentNotEncrypted
| NoTokenForAuth
| AttributeError (attr : string)
| NameError (name : string)
| KeyError (key : string)
| LookupError
| IOError
| TypeError
| ValueError
| HTTPError (status : nat).

Inductive result (A : Type) : Type :=
| Ok (a : A)
| Raise (e : exn).
Arguments Ok {A} a.
Arguments Raise {A} e.

Definition is_ok {A} (r : result A) : bool :=
  match r with Ok _ => true | Raise _ => false end.

(** The values that travel through the proxy. *)
Inductive value : Type :=
| VNone
| VBool (b : bool)
| VInt (n : Z)
| VStr (s : string).

(** Truth value testing, as used by [if not attr] and [x or y]. *)
Definition truthy (v : value) : bool :=
  match v with
  | VNone => false
  | VBool b => b
  | VInt n => negb (Z.eqb n 0)
  | VStr s => negb (String.eqb s "")
  end.

(** [param or default] where [param] is [None] or a string. *)
Definition str_or (param : option string) (default : string) : string :=
  match param with
  | None => default
  | Some s => if String.eqb s "" then default else s
  end.

(** [re.compile('.*%s.*').match(val)]: [match] anchors at the start and
    [.] does not cross a newline, so the pattern matches exactly when the
    first line of [val] contains the two characters [%s]. *)
Fixpoint first_line (s : string) : string :=
  match s with
  | EmptyString => EmptyString
  | String c rest =>
      if Ascii.eqb c "010"%char then EmptyString
      else String c (first_line rest)
  end.

Fixpoint contains_percent_s (s : string) : bool :=
  match s with
  | EmptyString => false
  | String c rest =>
      match rest with
      | String d _ =>
          (Ascii.eqb c "%"%char && Ascii.eqb d "s"%char)
          || contains_percent_s rest
      | EmptyString => false
      end
  end.

Definition matches_percent_s (val : string) : bool :=
  contains_percent_s (first_line val).

(** [string.ascii_letters + string.digits] *)
Definition ascii_letters : string :=
  "abcdefghijklmnopqrstuvwxyzABCDEFGHIJKLMNOPQRSTUVWXYZ".
Definition digits : string := "0123456789".

Fixpoint string_of_chars (l : list ascii) : string :=
  match l with
  | [] => EmptyString
  | c :: l' => String c (string_of_chars l')
  end.

Fixpoint string_mem (c : ascii) (s : string) : bool :=
  match s with
  | EmptyString => false
  | String d rest => Ascii.eqb c d || string_mem c rest
  end.

Fixpoint string_forall (p : ascii -> bool) (s : string) : bool :=
  match s with
  | EmptyString => true
  | String c rest => p c && string_forall p rest
  end.

(** [p[:i], p[i:]] where [i = p.rfind('/') + 1]: the path up to and
    including its last slash, and what follows it. *)
Fixpoint rsplit_slash (p : string) : string * string :=
  match p with
  | EmptyString => (EmptyString, EmptyString)
  | String c rest =>
      match rsplit_slash rest with
      | (EmptyString, tail) =>
          if Ascii.eqb c "/"%char then (String c EmptyString, tail)
          else (EmptyString, String c tail)
      | (head, tail) => (String c head, tail)
      end
  end.

(** [s.rstrip('/')] *)
Fixpoint rstrip_slashes (s : string) : string :=
  match s with
  | EmptyString => EmptyString
  | String c rest =>
      match rstrip_slashes rest with
      | EmptyString =>
          if Ascii.eqb c "/"%char then EmptyString else String c EmptyString
      | rest' => String c rest'
      end
  end.

Definition all_slashes (s : string) : bool :=
  string_forall (fun c => Ascii.eqb c "/"%char) s.

(** [os.path.dirname] and [os.path.basename] of [posixpath]. *)
Definition dirname (p : string) : string :=
  let head := fst (rsplit_slash p) in
  if all_slashes head then head else rstrip_slashes head.

Definition basename (p : string) : string := snd (rsplit_slash p).

(** The standard-library functions the source calls. *)
Class Runtime : Type := {
  (** [hmac.new(key, msg).hexdigest()] *)
  hmac_hexdigest : string -> string -> string;
  (** the [k]-th number produced by the generator behind [random.choice];
      [random.choice(seq)] picks [seq[draw mod len(seq)]] *)
  random_draw : nat -> nat;
  (** [fmt % arg] with a string argument; raises on a bad format *)
  percent_format : string -> string -> result string;
  (** section names of the configuration file whose content is given
      ([None]: no such file, which [ConfigParser.read] ignores) *)
  config_sections : option string -> result (list string);
  (** [HTTPClientBase._request_json(method, url_parts, ...)] against the
      server at [url]: [None] when the request succeeds *)
  http_request_json : string -> string -> list string -> option exn
}.

End Py.
Export Py.

(** ** The GnuPG wrapper ([leap.soledad.util.GPGWrapper]) as an interface *)

Module GPG.

(** The dictionary returned by [find_key_by_email] and [encrypted_to];
    the source only reads its ['fingerprint'] entry. *)
Record KeyInfo : Type := { fingerprint : string }.

(** The keyword arguments of [gen_key_input]. *)
Record KeyParams : Type := {
  key_type : string;
  key_length : nat;
  name_real : string;
  name_email : string;
  name_comment : string
}.

Class Provider : Type := {
  (** contents of the GnuPG home directory *)
  Keyring : Type;
  (** [find_key_by_email(email, secret=...)]; [None] is [LookupError] *)
  find_key_by_email : Keyring -> string -> bool -> option KeyInfo;
  (** [gen_key(gen_key_input(...))] *)
  gen_key : Keyring -> KeyParams -> Keyring;
  (** [str(encrypt(data, recipient, sign=, passphrase=, symmetric=))] *)
  encrypt : Keyring -> string -> string -> option string ->
            option string -> bool -> string;
  (** [str(decrypt(data, passphrase=))] *)
  decrypt : Keyring -> string -> option string -> string;
  encrypted_to : Keyring -> string -> KeyInfo;
  is_encrypted : Keyring -> string -> bool;
  is_encrypted_sym : Keyring -> string -> bool;
  is_encrypted_asym : Keyring -> string -> bool
}.

(** What the specification expects of the provider's symmetric mode:
    decrypting with the passphrase that encrypted gives the data back. *)
Definition symmetric_round_trip (P : Provider) : Prop :=
  forall (kr : Keyring) (data recipient : string) (sign : option string)
         (passphrase : string),
    decrypt kr (encrypt kr data recipient sign (Some passphrase) true)
            (Some passphrase) = data.

End GPG.

(** ** [src/__init__.py]: class [Soledad] *)

Module Soledad.

Import GPG.

Definition SECRET_LENGTH : nat := 50.

(** [DEFAULT_CONF], in source order. *)
Definition DEFAULT_CONF : list (string * string) :=
  [ ("gnupg_home", "%s/gnupg");
    ("secret_path", "%s/secret.gpg");
    ("local_db_path", "%s/soledad.u1db");
    ("config_file", "%s/soledad.ini");
    ("soledad_server_url", "") ].

(** The names bound in the body of [class Soledad], in source order. *)
Definition class_dict : list string :=
  [ "SECRET_LENGTH"; "DEFAULT_CONF"; "__init__"; "_bootstrap";
    "_init_config"; "_init_dirs"; "_init_keys"; "_init_db"; "close";
    "_has_secret"; "_load_secret"; "_gen_secret";
    "_has_openpgp_keypair"; "_gen_openpgp_keypair";
    "_load_openpgp_keypair"; "publish_pubkey";
    "_has_keys"; "_load_keys"; "_gen_keys"; "_retrieve_keys";
    "encrypt"; "encrypt_symmetric"; "decrypt"; "decrypt_symmetric";
    "_hmac_passphrase"; "is_encrypted"; "is_encrypted_sym";
    "is_encrypted_asym";
    "put_doc"; "delete_doc"; "get_doc"; "get_docs"; "create_doc";
    "get_doc_conflicts"; "resolve_doc"; "sync" ].

(** The instance attributes [__init__] has bound when it reaches its
    last statement: two direct assignments, [prefix], and one [setattr]
    per key of [DEFAULT_CONF]. *)
Definition init_instance_dict : list string :=
  ("_user_email" :: "_auth_token" :: "prefix" :: map fst DEFAULT_CONF)%list.

Definition has_attribute (name : string) : bool :=
  existsb (String.eqb name) (init_instance_dict ++ class_dict)%list.

(** A [SoledadClient] instance: the server URL and the token. *)
Record Client : Type := {
  client_url : string;
  client_token : option string
}.

(** What [sqlcipher.open(path, secret, create=True, ...)] was given. *)
Record Database : Type := {
  db_path : string;
  db_secret : string
}.

(** A [Soledad] instance.  The first eight fields are bound by
    [__init__]; the optional ones are bound later, by the method named in
    the comment, and reading them before that raises [AttributeError]. *)
Record t : Type := {
  _user_email : string;
  _auth_token : option string;
  prefix : string;
  gnupg_home : string;
  secret_path : string;
  local_db_path : string;
  config_file : string;
  soledad_server_url : string;
  _client : option Client;            (* __init__, when a URL is given *)
  _gpg : option string;               (* _bootstrap: GPGWrapper(gnupghome) *)
  _fingerprint : option string;       (* _load_openpgp_keypair *)
  _secret : option string;            (* _load_secret, _gen_secret *)
  _db : option Database               (* _init_db *)
}.

(** Calls on collaborators that a test spy would count. *)
Inductive call : Type :=
| RemoteRequest (method : string) (url_parts : list string)
| GenKey (params : KeyParams)
| RandomChoice                      (* the draws of one fresh secret *)
| WriteFile (path : string).

Section WithCollaborators.

Context {RT : Runtime} {P : Provider}.

(** Everything outside the object that the methods read or change. *)
Record World : Type := {
  files : gmap string string;        (* regular files: path -> content *)
  dirs : gset string;                (* existing directories *)
  environ : gmap string string;      (* os.environ *)
  keyring : Keyring;                 (* GnuPG home *)
  rng : nat;                         (* draws taken from [random] so far *)
  calls : list call                  (* spy log, oldest first *)
}.

Record State : Type := { self : t; world : World }.

(** *** The monad of methods *)

Definition M (A : Type) : Type := State -> result A * State.

Definition ret {A} (a : A) : M A := fun st => (Ok a, st).
Definition raise {A} (e : exn) : M A := fun st => (Raise e, st).
Definition bind {A B} (m : M A) (k : A -> M B) : M B :=
  fun st =>
    match m st with
    | (Ok a, st') => k a st'
    | (Raise e, st') => (Raise e, st')
    end.
(** [try: body / except Exception: handler] *)
Definition try_except {A} (body : M A) (handler : exn -> M A) : M A :=
  fun st =>
    match body st with
    | (Ok a, st') => (Ok a, st')
    | (Raise e, st') => handler e st'
    end.

Definition get_self : M t := fun st => (Ok (self st), st).
Definition get_world : M World := fun st => (Ok (world st), st).
Definition set_self (s : t) : M unit :=
  fun st => (Ok tt, {| self := s; world := world st |}).
Definition set_world (w : World) : M unit :=
  fun st => (Ok tt, {| self := self st; world := w |}).

Notation "'let!' x ':=' c1 'in' c2" := (bind c1 (fun x => c2))
  (at level 10, x name, c1 at level 100, c2 at level 200).
Notation "c1 '>>' c2" := (bind c1 (fun _ => c2))
  (at level 100, c2 at level 200, right associativity).

(** Reading an attribute that may not have been bound yet. *)
Definition attr {A} (name : string) (field : t -> option A) : M A :=
  fun st =>
    match field (self st) with
    | Some a => (Ok a, st)
    | None => (Raise (AttributeError name), st)
    end.

(** [self.<name>] for a name found in neither the instance nor the class
    dictionary ([has_attribute name = false]); [Soledad] defines no
    [__getattr__], so the lookup raises. *)
Definition unbound_attribute {A} (name : string) : M A :=
  raise (AttributeError name).

Definition log (c : call) : M unit :=
  fun st =>
    let w := world st in
    (Ok tt,
     {| self := self st;
        world := {| files := files w; dirs := dirs w; environ := environ w;
                    keyring := keyring w; rng := rng w;
                    calls := (calls w ++ [c])%list |} |}).

(** *** Attribute assignments *)

Definition with_client (s : t) (c : Client) : t :=
  {| _user_email := _user_email s; _auth_token := _auth_token s;
     prefix := prefix s; gnupg_home := gnupg_home s;
     secret_path := secret_path s; local_db_path := local_db_path s;
     config_file := config_file s;
     soledad_server_url := soledad_server_url s;
     _client := Some c; _gpg := _gpg s; _fingerprint := _fingerprint s;
     _secret := _secret s; _db := _db s |}.

Definition with_gpg (s : t) (home : string) : t :=
  {| _user_email := _user_email s; _auth_token := _auth_token s;
     prefix := prefix s; gnupg_home := gnupg_home s;
     secret_path := secret_path s; local_db_path := local_db_path s;
     config_file := config_file s;
     soledad_server_url := soledad_server_url s;
     _client := _client s; _gpg := Some home;
     _fingerprint := _fingerprint s; _secret := _secret s; _db := _db s |}.

Definition with_fingerprint (s : t) (fp : string) : t :=
  {| _user_email := _user_email s; _auth_token := _auth_token s;
     prefix := prefix s; gnupg_home := gnupg_home s;
     secret_path := secret_path s; local_db_path := local_db_path s;
     config_file := config_file s;
     soledad_server_url := soledad_server_url s;
     _client := _client s; _gpg := _gpg s; _fingerprint := Some fp;
     _secret := _secret s; _db := _db s |}.

Definition with_secret (s : t) (secret : string) : t :=
  {| _user_email := _user_email s; _auth_token := _auth_token s;
     prefix := prefix s; gnupg_home := gnupg_home s;
     secret_path := secret_path s; local_db_path := local_db_path s;
     config_file := config_file s;
     soledad_server_url := soledad_server_url s;
     _client := _client s; _gpg := _gpg s;
     _fingerprint := _fingerprint s; _secret := Some secret;
     _db := _db s |}.

Definition with_db (s : t) (d : Database) : t :=
  {| _user_email := _user_email s; _auth_token := _auth_token s;
     prefix := prefix s; gnupg_home := gnupg_home s;
     secret_path := secret_path s; local_db_path := local_db_path s;
     config_file := config_file s;
     soledad_server_url := soledad_server_url s;
     _client := _client s; _gpg := _gpg s;
     _fingerprint := _fingerprint s; _secret := _secret s;
     _db := Some d |}.

Definition with_files (w : World) (f : gmap string string) : World :=
  {| files := f; dirs := dirs w; environ := environ w;
     keyring := keyring w; rng := rng w; calls := calls w |}.

Definition with_dirs (w : World) (d : gset string) : World :=
  {| files := files w; dirs := d; environ := environ w;
     keyring := keyring w; rng := rng w; calls := calls w |}.

Definition with_keyring (w : World) (kr : Keyring) : World :=
  {| files := files w; dirs := dirs w; environ := environ w;
     keyring := kr; rng := rng w; calls := calls w |}.

Definition with_rng (w : World) (n : nat) : World :=
  {| files := files w; dirs := dirs w; environ := environ w;
     keyring := keyring w; rng := n; calls := calls w |}.

(** *** Management of the OpenPGP keypair *)

Definition _has_openpgp_keypair : M bool :=
  let! _ := attr "_gpg" _gpg in
  let! s := get_self in
  let! w := get_world in
  match find_key_by_email (keyring w) (_user_email s) true with
  | Some _ => ret true
  | None => ret false                     (* except LookupError *)
  end.

Definition _gen_openpgp_keypair : M unit :=
  let! has := _has_openpgp_keypair in
  if has then raise KeyAlreadyExists
  else
    let! _ := attr "_gpg" _gpg in
    let! s := get_self in
    let params :=
      {| key_type := "RSA"; key_length := 4096;
         name_real := _user_email s; name_email := _user_email s;
         name_comment := "Generated by LEAP Soledad." |} in
    let! w := get_world in
    set_world (with_keyring w (gen_key (keyring w) params)) >>
    log (GenKey params).

Definition _load_openpgp_keypair : M unit :=
  let! has := _has_openpgp_keypair in
  if negb has then raise KeyDoesNotExist
  else
    let! _ := attr "_gpg" _gpg in
    let! s := get_self in
    let! w := get_world in
    match find_key_by_email (keyring w) (_user_email s) false with
    | Some info => set_self (with_fingerprint s (fingerprint info))
    | None => raise LookupError
    end.

(** *** Management of the secret for symmetric encryption *)

Definition is_encrypted_asym (data : string) : M bool :=
  let! _ := attr "_gpg" _gpg in
  let! w := get_world in
  ret (GPG.is_encrypted_asym (keyring w) data).

Definition _has_secret : M bool :=
  let! s := get_self in
  let! w := get_world in
  (* does the file exist in disk? *)
  match files w !! secret_path s with
  | None => ret false
  | Some content =>
      (* is it asymmetrically encrypted? *)
      let! asym := is_encrypted_asym content in
      if negb asym then raise DocumentNotEncrypted
      else
        (* can we decrypt it? *)
        let! _ := attr "_gpg" _gpg in
        let fp := fingerprint (encrypted_to (keyring w) content) in
        let! mine := attr "_fingerprint" _fingerprint in
        if negb (String.eqb fp mine) then raise KeyDoesNotExist
        else ret true
  end.

Definition _load_secret : M unit :=
  let! has := _has_secret in
  if negb has then raise KeyDoesNotExist
  else
    let! s := get_self in
    let! w := get_world in
    match files w !! secret_path s with
    | None => raise IOError
    | Some content =>
        let! _ := attr "_gpg" _gpg in
        set_self (with_secret s (GPG.decrypt (keyring w) content None))
    end.

(** [random.choice(alphabet)] on the draw number [d]. *)
Definition choice (alphabet : string) (d : nat) : ascii :=
  match String.get (d mod String.length alphabet) alphabet with
  | Some c => c
  | None => "000"%char
  end.

(** [''.join(random.choice(alphabet) for x in range(n))], the generator
    having produced [k] numbers before. *)
Fixpoint random_string (alphabet : string) (k n : nat) : string :=
  match n with
  | O => EmptyString
  | S n' =>
      String (choice alphabet (random_draw k))
             (random_string alphabet (S k) n')
  end.

(** Whether [open(path, 'w')] finds a place for the file among the
    directories [d] that exist: the path names something inside a
    directory, that directory exists (the current directory and the root
    always do), and the path is not a directory itself. *)
Definition can_open_for_writing (d : gset string) (path : string) : bool :=
  negb (String.eqb (basename path) "")
  && negb (bool_decide (path ∈ d))
  && (all_slashes (dirname path) || bool_decide (dirname path ∈ d)).

(** [open(path, 'w')], [write], [close].  [open] raises [IOError] when the
    directory of the path is missing or the path is a directory; nothing
    is written then. *)
Definition write_file (path content : string) : M unit :=
  let! w := get_world in
  if can_open_for_writing (dirs w) path then
    set_world (with_files w (<[path := content]> (files w))) >>
    log (WriteFile path)
  else raise IOError.

Definition _gen_secret : M unit :=
  let! has := _has_secret in
  if has then raise KeyAlreadyExists
  else
    let! s := get_self in
    let! w := get_world in
    let secret :=
      random_string (ascii_letters +:+ digits) (rng w) SECRET_LENGTH in
    set_world (with_rng w (rng w + SECRET_LENGTH)) >>
    log RandomChoice >>
    set_self (with_secret s secret) >>
    let! _ := attr "_gpg" _gpg in
    let! fp := attr "_fingerprint" _fingerprint in
    let ciphertext :=
      GPG.encrypt (keyring w) secret fp (Some fp) None false in
    write_file (secret_path s) ciphertext.

(** *** General crypto utility methods *)

Definition _has_keys : M bool :=
  let! kp := _has_openpgp_keypair in
  if kp then _has_secret else ret false.

Definition _load_keys : M unit :=
  _load_openpgp_keypair >> _load_secret.

Definition _gen_keys : M unit :=
  _gen_openpgp_keypair >> _gen_secret.

(** [SoledadClient._request_json]; the result of the base class is
    dropped, the method returns [None]. *)
Definition Client_request_json (c : Client) (method : string)
    (url_parts : list string) (auth : bool) : M unit :=
  if auth then raise (NameError "token")   (* [token] is not a global *)
  else
    log (RemoteRequest method url_parts) >>
    match http_request_json (client_url c) method url_parts with
    | Some e => raise e
    | None => ret tt
    end.

Definition _retrieve_keys : M unit :=
  let! s := get_self in
  let h := hmac_hexdigest (_user_email s) "user-keys" in
  let! c := attr "_client" _client in
  Client_request_json c "GET" ["user-keys"; h] false.

(** *** Bootstrap *)

Definition _init_dirs : M unit :=
  let! s := get_self in
  let! w := get_world in
  if bool_decide (prefix s ∈ dirs w) then ret tt
  else set_world (with_dirs w ({[prefix s]} ∪ dirs w)).

Definition _init_keys : M unit :=
  (* load/generate OpenPGP keypair *)
  let! kp := _has_openpgp_keypair in
  (if negb kp then _gen_openpgp_keypair else ret tt) >>
  _load_openpgp_keypair >>
  (* load/generate secret *)
  let! sec := _has_secret in
  (if negb sec then _gen_secret else ret tt) >>
  _load_secret.

Definition _init_db : M unit :=
  let! s := get_self in
  let! secret := attr "_secret" _secret in
  set_self (with_db s {| db_path := local_db_path s; db_secret := secret |}).

Definition _bootstrap : M unit :=
  _init_dirs >>
  (let! s := get_self in set_self (with_gpg s (gnupg_home s))) >>
  let! has := _has_keys in
  (if negb has then
     try_except
       (* stage 2 bootstrap *)
       _retrieve_keys
       (* stage 1 bootstrap *)
       (fun _ => _init_keys >> unbound_attribute "_send_keys")
   else ret tt) >>
  (* stage 3 bootstrap *)
  _load_keys >>
  _init_db.

Definition close : M unit :=
  let! _ := attr "_db" _db in ret tt.

(** *** Data encryption and decryption *)

Definition encrypt (data : string) (sign passphrase : option string)
    (symmetric : bool) : M string :=
  let! _ := attr "_gpg" _gpg in
  let! fp := attr "_fingerprint" _fingerprint in
  let! w := get_world in
  ret (GPG.encrypt (keyring w) data fp sign passphrase symmetric).

Definition decrypt (data : string) (passphrase : option string)
    (symmetric : bool) : M string :=
  let! _ := attr "_gpg" _gpg in
  let! w := get_world in
  ret (GPG.decrypt (keyring w) data passphrase).

Definition _hmac_passphrase (doc_id : string) : M string :=
  let! secret := attr "_secret" _secret in
  ret (hmac_hexdigest secret doc_id).

Definition encrypt_symmetric (doc_id data : string) (sign : option string)
    : M string :=
  let! passphrase := _hmac_passphrase doc_id in
  encrypt data sign (Some passphrase) true.

Definition decrypt_symmetric (doc_id data : string) : M string :=
  let! passphrase := _hmac_passphrase doc_id in
  decrypt data (Some passphrase) false.

(** *** Construction *)

(** The arguments of [__init__]. *)
Record InitArgs : Type := {
  arg_user_email : string;
  arg_prefix : option string;
  arg_gnupg_home : option string;
  arg_secret_path : option string;
  arg_local_db_path : option string;
  arg_config_file : option string;
  arg_soledad_server_url : option string;
  arg_auth_token : option string;
  arg_initialize : bool
}.

(** The dictionary [__init__] hands to [_init_config]. *)
Definition param_conf (a : InitArgs) : list (string * option string) :=
  [ ("prefix", arg_prefix a);
    ("gnupg_home", arg_gnupg_home a);
    ("secret_path", arg_secret_path a);
    ("local_db_path", arg_local_db_path a);
    ("config_file", arg_config_file a);
    ("soledad_server_url", arg_soledad_server_url a) ].

Fixpoint dict_get {V} (d : list (string * V)) (key : string) : result V :=
  match d with
  | [] => Raise (KeyError key)
  | (k, v) :: d' => if String.eqb k key then Ok v else dict_get d' key
  end.

Definition rbind {A B} (r : result A) (k : A -> result B) : result B :=
  match r with
  | Ok a => k a
  | Raise e => Raise e
  end.

(** One round of the loop over [DEFAULT_CONF]: the value [setattr] binds
    to [key]. *)
Definition conf_value (pc : list (string * option string))
    (the_prefix key : string) : result string :=
  rbind (dict_get DEFAULT_CONF key) (fun default_value =>
  rbind (dict_get pc key) (fun param =>
  let val := str_or param default_value in
  if matches_percent_s val then percent_format val the_prefix
  else Ok val)).

(** [_init_config]: the instance with the configuration attributes bound,
    the optional attributes still unbound. *)
Definition _init_config (a : InitArgs) (w : World) : result t :=
  let pc := param_conf a in
  rbind (dict_get pc "prefix") (fun p =>
  rbind (match p with
         | Some p' =>
             if negb (String.eqb p' "") then Ok p'
             else
               match environ w !! "HOME" with
               | Some home => Ok (home +:+ "/.config/leap/soledad")
               | None => Raise (KeyError "HOME")
               end
         | None =>
             match environ w !! "HOME" with
             | Some home => Ok (home +:+ "/.config/leap/soledad")
             | None => Raise (KeyError "HOME")
             end
         end) (fun the_prefix =>
  rbind (conf_value pc the_prefix "gnupg_home") (fun v_gnupg_home =>
  rbind (conf_value pc the_prefix "secret_path") (fun v_secret_path =>
  rbind (conf_value pc the_prefix "local_db_path") (fun v_local_db_path =>
  rbind (conf_value pc the_prefix "config_file") (fun v_config_file =>
  rbind (conf_value pc the_prefix "soledad_server_url") (fun v_url =>
  (* get config from file *)
  rbind (config_sections (files w !! v_config_file)) (fun sections =>
  if existsb (String.eqb "soledad-client") sections
  then Raise (NameError "default_conf")   (* [for key in default_conf] *)
  else
    Ok {| _user_email := arg_user_email a;
          _auth_token := arg_auth_token a;
          prefix := the_prefix;
          gnupg_home := v_gnupg_home;
          secret_path := v_secret_path;
          local_db_path := v_local_db_path;
          config_file := v_config_file;
          soledad_server_url := v_url;
          _client := None; _gpg := None; _fingerprint := None;
          _secret := None; _db := None |})))))))).

(** [Soledad(user_email, ..., initialize=...)]: the new instance, or the
    exception that leaves the constructor, and the world afterwards. *)
Definition __init__ (a : InitArgs) (w : World) : result t * World :=
  match _init_config a w with
  | Raise e => (Raise e, w)
  | Ok s =>
      if negb (String.eqb (soledad_server_url s) "")
      then (Raise (NameError "server_url"), w)
      else if arg_initialize a
      then
        match @unbound_attribute unit "bootstrap"
                {| self := s; world := w |} with
        | (Ok _, st) => (Ok (self st), world st)
        | (Raise e, st) => (Raise e, world st)
        end
      else (Ok s, w)
  end.

(** The manager is ready when the fingerprint and the secret are loaded
    (and the GnuPG wrapper they are used with is bound). *)
Definition READY (s : t) : Prop :=
  is_Some (_gpg s) /\ is_Some (_fingerprint s) /\ is_Some (_secret s).

End WithCollaborators.

End Soledad.

(** ** [src/leap/soledad/dbwrapper.py]: class [SQLCipherWrapper] *)

Module SQLCipherWrapper.

(** *** The store behind the proxy *)

(** How a call on the store ends: with a value, or with an exception, of
    which the worker reads [e.args]. *)
Inductive outcome : Type :=
| Returns (v : value)
| Raises (args : list value).

(** What [getattr(self._db, mth, None)] finds: a bound method, which runs
    on the store and may change it, or a plain value. *)
Inductive attribute (db : Type) : Type :=
| Method (f : list value -> list (string * value) -> db -> outcome * db)
| Plain (v : value).
Arguments Method {db} f.
Arguments Plain {db} v.

Class Store : Type := {
  db : Type;
  (** [None]: the store has no attribute of that name *)
  db_getattr : db -> string -> option (attribute db)
}.

(** Private name mangling: an identifier with two leading underscores and
    without two trailing ones, written inside [class cls], is compiled as
    [_cls__name].  It applies to [self.__end_thread] in [close]; it does
    not apply to the string literal ["__end_thread"] in [run]. *)
Fixpoint ends_with_two_underscores (s : string) : bool :=
  match s with
  | String "_" (String "_" EmptyString) => true
  | String _ rest => ends_with_two_underscores rest
  | EmptyString => false
  end.

Definition mangle (cls ident : string) : string :=
  match ident with
  | String "_" (String "_" _) =>
      if ends_with_two_underscores ident then ident
      else "_" +:+ cls +:+ ident
  | _ => ident
  end.

Definition class_name : string := "SQLCipherWrapper".

(** The sentinel [run] compares the method name with. *)
Definition end_thread_literal : string := "__end_thread".

(** The attribute [close] asks for with [self.__end_thread]. *)
Definition end_thread_attribute : string := mangle class_name "__end_thread".

(** *** Requests, events, state *)

(** The tuple [(method, q, wrargs)]; [q] is the identity of the caller's
    one-shot reply queue. *)
Record request : Type := {
  mth : string;
  reply : nat;
  args : list value;
  kwargs : list (string * value)
}.

(** What an observer of the wrapper can record. *)
Inductive event : Type :=
| EvPut (r : request)          (* a caller's [self._queue.put] *)
| EvGet (r : request)          (* the worker's [self._queue.get] *)
| EvBegin (r : request)        (* the worker enters [attr(...)] *)
| EvEnd (r : request)          (* ... and leaves it *)
| EvReply (q : nat) (v : value)  (* the worker's [q.put(res)] *)
| EvLogError (m : string)      (* [logger.error] *)
| EvDirect (m : string).       (* a store method run by a caller thread *)

Section WithStore.

Context {ST : Store}.

(** Where the worker thread stands in [run]. *)
Inductive worker_pc : Type :=
| AtAcquire                             (* before [self._lock.acquire()] *)
| AtGet                                 (* before [self._queue.get()] *)
| Invoking (r : request)
    (f : list value -> list (string * value) -> db -> outcome * db)
                                        (* inside [attr(...)] *)
| Replying (r : request) (res : value)  (* before [q.put(res)] *)
| Finished                              (* [run] returned *)
| Crashed.                              (* an exception left [run] *)

Record t : Type := {
  _db : db;                          (* the store, opened by [_init_db] *)
  _queue : list request;             (* head: next request out *)
  _stopped : bool;                   (* the event [self._stopped] *)
  _lock : bool;                      (* [self._lock] is held *)
  channels : gmap nat (list value);  (* the reply queues, by identity *)
  next_channel : nat;
  worker : worker_pc;
  trace : list event                 (* oldest first *)
}.

(** The wrapper once the worker has run [_init_db] and stands at the top
    of its loop. *)
Definition init (store : db) : t :=
  {| _db := store; _queue := []; _stopped := false; _lock := false;
     channels := ∅; next_channel := 0; worker := AtAcquire; trace := [] |}.

(** *** The worker: one step of [run] *)

(** What the worker does with the request it has just taken. *)
Definition dispatch (s : t) (r : request) (rest : list request) : t :=
  let tr := (trace s ++ [EvGet r])%list in
  if String.eqb (mth r) end_thread_literal then
    (* break; self._stopped.set() *)
    {| _db := _db s; _queue := rest; _stopped := true; _lock := _lock s;
       channels := channels s; next_channel := next_channel s;
       worker := Finished; trace := tr |}
  else
    let unknown :=
      (* logger.error(...); continue -- the lock stays held *)
      {| _db := _db s; _queue := rest; _stopped := _stopped s;
         _lock := _lock s; channels := channels s;
         next_channel := next_channel s; worker := AtAcquire;
         trace := (tr ++ [EvLogError (mth r)])%list |} in
    match db_getattr (_db s) (mth r) with
    | None => unknown
    | Some (Plain v) =>
        if truthy v then
          (* non-callable attribute: res = attr *)
          {| _db := _db s; _queue := rest; _stopped := _stopped s;
             _lock := _lock s; channels := channels s;
             next_channel := next_channel s; worker := Replying r v;
             trace := tr |}
        else unknown
    | Some (Method f) =>
        {| _db := _db s; _queue := rest; _stopped := _stopped s;
           _lock := _lock s; channels := channels s;
           next_channel := next_channel s; worker := Invoking r f;
           trace := (tr ++ [EvBegin r])%list |}
    end.

(** The next state of the worker thread; [None] when it cannot move: it
    waits for a lock that is held, for a request on an empty queue, or it
    has terminated. *)
Definition worker_step (s : t) : option t :=
  match worker s with
  | AtAcquire =>
      if _lock s then None
      else Some {| _db := _db s; _queue := _queue s;
                   _stopped := _stopped s; _lock := true;
                   channels := channels s;
                   next_channel := next_channel s; worker := AtGet;
                   trace := trace s |}
  | AtGet =>
      match _queue s with
      | [] => None
      | r :: rest => Some (dispatch s r rest)
      end
  | Invoking r f =>
      let '(out, store) := f (args r) (kwargs r) (_db s) in
      let tr := (trace s ++ [EvEnd r])%list in
      match out with
      | Returns v =>
          Some {| _db := store; _queue := _queue s;
                  _stopped := _stopped s; _lock := _lock s;
                  channels := channels s;
                  next_channel := next_channel s;
                  worker := Replying r v; trace := tr |}
      | Raises (_ :: _) =>
          (* except Exception as e: logger.error(... e.args[0]) *)
          Some {| _db := store; _queue := _queue s;
                  _stopped := _stopped s; _lock := _lock s;
                  channels := channels s;
                  next_channel := next_channel s;
                  worker := Replying r VNone;
                  trace := (tr ++ [EvLogError (mth r)])%list |}
      | Raises [] =>
          (* e.args[0] raises IndexError inside the handler *)
          Some {| _db := store; _queue := _queue s;
                  _stopped := _stopped s; _lock := _lock s;
                  channels := channels s;
                  next_channel := next_channel s;
                  worker := Crashed; trace := tr |}
      end
  | Replying r res =>
      (* q.put(res); self._lock.release() *)
      Some {| _db := _db s; _queue := _queue s; _stopped := _stopped s;
              _lock := false;
              channels :=
                <[reply r := (default [] (channels s !! reply r)
                              ++ [res])%list]> (channels s);
              next_channel := next_channel s; worker := AtAcquire;
              trace := (trace s ++ [EvReply (reply r) res])%list |}
  | Finished => None
  | Crashed => None
  end.

(** The worker left alone for at most [fuel] steps. *)
Fixpoint run_worker (fuel : nat) (s : t) : t :=
  match fuel with
  | O => s
  | S fuel' =>
      match worker_step s with
      | Some s' => run_worker fuel' s'
      | None => s
      end
  end.

(** *** The callers *)

(** [q = Queue.Queue(); self._queue.put((method, q, wrargs))] *)
Definition queue_put (method : string) (a : list value)
    (kw : list (string * value)) (s : t) : t :=
  let r := {| mth := method; reply := next_channel s;
              args := a; kwargs := kw |} in
  {| _db := _db s; _queue := (_queue s ++ [r])%list;
     _stopped := _stopped s; _lock := _lock s;
     channels := <[next_channel s := []]> (channels s);
     next_channel := S (next_channel s); worker := worker s;
     trace := (trace s ++ [EvPut r])%list |}.

(** [__proxied_mth(method, ...)] up to the point where the
    caller blocks in [q.get()]: the reply queue it waits on, or [None] when
    [_stopped] was set and the call returned [None] at once. *)
Definition __proxied_mth (method : string) (a : list value)
    (kw : list (string * value)) (s : t) : option nat * t :=
  if _stopped s then (None, s)
  else (Some (next_channel s), queue_put method a kw s).

(** [res = q.get()]: the caller takes its reply, if one has arrived. *)
Definition channel_get (q : nat) (s : t) : option (value * t) :=
  match channels s !! q with
  | Some (v :: rest) =>
      Some (v, {| _db := _db s; _queue := _queue s;
                  _stopped := _stopped s; _lock := _lock s;
                  channels := <[q := rest]> (channels s);
                  next_channel := next_channel s; worker := worker s;
                  trace := trace s |})
  | _ => None
  end.

(** A store method called by the calling thread itself, as [close] does
    with [self._db.close()]. *)
Definition direct_call (name : string) (s : t) : result value * t :=
  match db_getattr (_db s) name with
  | Some (Method f) =>
      let '(out, store) := f [] [] (_db s) in
      (match out with
       | Returns v => Ok v
       | Raises _ => Raise ValueError
       end,
       {| _db := store; _queue := _queue s; _stopped := _stopped s;
          _lock := _lock s; channels := channels s;
          next_channel := next_channel s; worker := worker s;
          trace := (trace s ++ [EvDirect name])%list |})
  | Some (Plain _) => (Raise TypeError, s)
  | None => (Raise (AttributeError name), s)
  end.

(** [close()] up to the point where the caller blocks on the reply of its
    end-of-thread request. *)
Definition close (s : t) : result (option nat) * t :=
  match direct_call "close" s with
  | (Ok _, s1) =>
      let '(q, s2) := __proxied_mth end_thread_attribute [] [] s1 in
      (Ok q, s2)
  | (Raise e, s1) => (Raise e, s1)
  end.

(** *** Interleavings *)

(** What any thread may do next. *)
Inductive action : Type :=
| ActWorker                               (* the worker takes a step *)
| ActPut (method : string) (a : list value) (kw : list (string * value))
                                          (* a caller that found
                                             [_stopped] clear enqueues *)
| ActReceive (q : nat)                    (* a caller takes its reply *)
| ActDirect (name : string).              (* a caller runs [self._db.m()] *)

(** An action that is not enabled leaves the state as it is. *)
Definition perform (s : t) (a : action) : t :=
  match a with
  | ActWorker => default s (worker_step s)
  | ActPut m a kw => queue_put m a kw s
  | ActReceive q => from_option snd s (channel_get q s)
  | ActDirect name => snd (direct_call name s)
  end.

Definition run_schedule (sched : list action) (s : t) : t :=
  fold_left perform sched s.

(** *** Reading a trace *)

Definition puts (tr : list event) : list request :=
  omap (fun e => match e with EvPut r => Some r | _ => None end) tr.

Definition gets (tr : list event) : list request :=
  omap (fun e => match e with EvGet r => Some r | _ => None end) tr.

Definition begins (tr : list event) : list request :=
  omap (fun e => match e with EvBegin r => Some r | _ => None end) tr.

Definition replied (tr : list event) : list nat :=
  omap (fun e => match e with EvReply q _ => Some q | _ => None end) tr.

(** The store call in progress while a trace is read from the left:
    [Some None] when none is, [Some (Some r)] inside the call for [r],
    [None] as soon as a call begins inside another or an end does not
    match the call in progress. *)
Definition bracket (open : option (option request)) (e : event)
    : option (option request) :=
  match open, e with
  | Some None, EvBegin r => Some (Some r)
  | Some (Some _), EvBegin _ => None
  | Some (Some r), EvEnd r' =>
      if Nat.eqb (reply r) (reply r') then Some None else None
  | Some None, EvEnd _ => None
  | _, _ => open
  end.

Definition in_progress (tr : list event) : option (option request) :=
  fold_left bracket tr (Some None).

End WithStore.

End SQLCipherWrapper.

(** ** The vocabulary of the specification *)

Module Spec.

Section Keys.

Import GPG Soledad.
Context {RT : Runtime} {P : Provider}.

(** A valid secret blob exists on disk: the file at the secret path is
    classified as asymmetrically encrypted and is encrypted to the cached
    fingerprint. *)
Definition has_valid_blob (st : State) : bool :=
  match files (world st) !! secret_path (self st),
        _fingerprint (self st) with
  | Some content, Some fp =>
      GPG.is_encrypted_asym (keyring (world st)) content
      && String.eqb
           (fingerprint (encrypted_to (keyring (world st)) content)) fp
  | _, _ => false
  end.

(** [generate_secret()] as the specification words it: a conflict when a
    valid blob exists, and otherwise a fresh secret that is encrypted to
    the user's own fingerprint and persisted. *)
Definition generate_secret_as_specified (st : State) : Prop :=
  (has_valid_blob st = true ->
   _gen_secret st = (Raise KeyAlreadyExists, st)) /\
  (has_valid_blob st = false ->
   exists (st' : State) (secret fp : string),
     _gen_secret st = (Ok tt, st') /\
     _fingerprint (self st) = Some fp /\
     _secret (self st') = Some secret /\
     files (world st') !! secret_path (self st) =
       Some (GPG.encrypt (keyring (world st)) secret fp (Some fp) None
               false)).

(** [load_secret()] as the specification words it: three failures, each
    under its own condition, and success, with the decrypted secret in
    memory, exactly when none of the three conditions holds. *)
Definition load_secret_as_specified (st : State) : Prop :=
  let kr := keyring (world st) in
  let file := files (world st) !! secret_path (self st) in
  let missing := file = None in
  let not_encrypted :=
    exists c, file = Some c /\ GPG.is_encrypted_asym kr c = false in
  let foreign :=
    exists c fp, file = Some c /\ GPG.is_encrypted_asym kr c = true /\
      _fingerprint (self st) = Some fp /\
      fingerprint (encrypted_to kr c) <> fp in
  (missing -> fst (_load_secret st) = Raise KeyDoesNotExist) /\
  (not_encrypted -> fst (_load_secret st) = Raise DocumentNotEncrypted) /\
  (foreign -> fst (_load_secret st) = Raise KeyDoesNotExist) /\
  (~ missing /\ ~ not_encrypted /\ ~ foreign <->
   exists st' secret,
     _load_secret st = (Ok tt, st') /\ _secret (self st') = Some secret).

(** The remote key retrieval raises: there is no client to ask, or the
    request for the user's keys fails. *)
Definition retrieval_raises (s : Soledad.t) : Prop :=
  match _client s with
  | None => True
  | Some c =>
      is_Some (http_request_json (client_url c) "GET"
                 ["user-keys"; hmac_hexdigest (_user_email s) "user-keys"])
  end.

(** The calls that reach the remote collaborator. *)
Definition is_remote (c : call) : bool :=
  match c with RemoteRequest _ _ => true | _ => false end.

(** Between two states the database handle is the same and the only calls
    made are local ones. *)
Definition local_only (st st' : State) : Prop :=
  _db (self st') = _db (self st) /\
  exists l, calls (world st') = (calls (world st) ++ l)%list /\
            forallb (fun c => negb (is_remote c)) l = true.

End Keys.

Section Proxy.

Import SQLCipherWrapper.
Context {ST : Store}.

(** The worker stands at the top of its loop, which has not been left,
    the lock is free, and [r] is the request it will take next. *)
Definition next_request (s : t) (r : request) : Prop :=
  worker s = AtAcquire /\ _lock s = false /\ _stopped s = false /\
  head (_queue s) = Some r.

(** The specification's reading of a failing call: the method is found
    and callable, the call raises, and no value ever appears on the reply
    channel of the request. *)
Definition exception_gives_no_reply (s : t) (r : request) : Prop :=
  forall f a store,
    next_request s r ->
    db_getattr (_db s) (mth r) = Some (Method f) ->
    f (args r) (kwargs r) (_db s) = (Raises a, store) ->
    forall n, default [] (channels (run_worker n s) !! reply r) = [].

(** The worker is stuck on its own lock: it waits at [acquire], the lock
    is held, and it has not terminated. *)
Definition deadlocked (s : t) : Prop :=
  worker s = AtAcquire /\ _lock s = true /\ _stopped s = false /\
  worker_step s = None.

(** Every request whose name is not an attribute of the store leaves the
    worker stuck. *)
Definition unknown_method_deadlocks (s : t) (r : request) : Prop :=
  next_request s r ->
  db_getattr (_db s) (mth r) = None ->
  forall n, 2 <= n -> deadlocked (run_worker n s).

(** Whatever the other threads do from [s] on, the worker stays stuck:
    it takes no further request, makes no store call, posts no reply. *)
Definition never_serves_again (s : t) : Prop :=
  forall sched,
    let s' := run_schedule sched s in
    deadlocked s' /\
    gets (trace s') = gets (trace s) /\
    begins (trace s') = begins (trace s) /\
    replied (trace s') = replied (trace s).

(** The request whose store call the worker is inside, if any. *)
Definition current (pc : worker_pc) : option request :=
  match pc with
  | Invoking r _ => Some r
  | _ => None
  end.

(** The reply the worker still owes for the request it has taken. *)
Definition owed (pc : worker_pc) : list nat :=
  match pc with
  | Invoking r _ | Replying r _ => [reply r]
  | _ => []
  end.

(** What holds of the wrapper in every interleaving: requests leave the
    queue in the order they entered it, store calls are bracketed one
    after the other, and calls and replies follow the order of the
    queue. *)
Definition serialized (s : t) : Prop :=
  puts (trace s) = (gets (trace s) ++ _queue s)%list /\
  in_progress (trace s) = Some (current (worker s)) /\
  sublist (begins (trace s)) (gets (trace s)) /\
  sublist (replied (trace s) ++ owed (worker s))%list
          (reply <$> gets (trace s)).

(** The worker has stopped for good: whatever the other threads do from
    [s] on, it stays where it is, with the lock and the flag as they are,
    and takes no request, makes no store call, posts no reply. *)
Definition stopped_for_good (s : t) : Prop :=
  forall sched,
    let s' := run_schedule sched s in
    worker s' = worker s /\ _lock s' = _lock s /\
    _stopped s' = _stopped s /\
    gets (trace s') = gets (trace s) /\
    begins (trace s') = begins (trace s) /\
    replied (trace s') = replied (trace s).

(** The actions of callers that go through the proxy. *)
Definition is_proxied (a : action) : bool :=
  match a with
  | ActPut _ _ _ | ActReceive _ => true
  | ActWorker | ActDirect _ => false
  end.

(** A request the store can always answer: its name is not the sentinel,
    the store has a method of that name whatever its state, and the
    method returns. *)
Definition answerable (r : request) : Prop :=
  mth r <> end_thread_literal /\
  exists f,
    (forall d, db_getattr d (mth r) = Some (Method f)) /\
    (forall d, exists v, fst (f (args r) (kwargs r) d) = Returns v).

(** What the relation of lock, flag and worker looks like in every
    interleaving. *)
Definition lock_discipline (s : t) : Prop :=
  (_stopped s = true <-> worker s = Finished) /\
  (_lock s = false -> worker s = AtAcquire) /\
  (reply <$> puts (trace s)) = seq 0 (next_channel s).

End Proxy.

End Spec.

(** ** Small concrete collaborators, to run the definitions on *)

Module Toy.

Import GPG.

(** Replace the first [%s] of [fmt] by [arg]. *)
Fixpoint substitute (fmt arg : string) : string :=
  match fmt with
  | String "%" (String "s" rest) => arg +:+ rest
  | String c rest => String c (substitute rest arg)
  | EmptyString => EmptyString
  end.

#[export] Instance runtime : Runtime := {|
  hmac_hexdigest key msg := key +:+ "/" +:+ msg;
  random_draw k := 7 * k + 3;
  percent_format fmt arg := Ok (substitute fmt arg);
  config_sections _ := Ok [];
  http_request_json _ _ _ := Some (HTTPError 404)
|}.

(** [strip p s]: what follows [p] in [s], when [s] starts with [p]. *)
Fixpoint strip (p s : string) : option string :=
  match p, s with
  | EmptyString, _ => Some s
  | String a p', String b s' => if Ascii.eqb a b then strip p' s' else None
  | String _ _, EmptyString => None
  end.

Fixpoint before_bar (s : string) : string :=
  match s with
  | EmptyString => EmptyString
  | String "|" _ => EmptyString
  | String c rest => String c (before_bar rest)
  end.

Fixpoint after_bar (s : string) : string :=
  match s with
  | EmptyString => EmptyString
  | String "|" rest => rest
  | String _ rest => after_bar rest
  end.

Definition toy_fingerprint (email : string) : string := "FP-" +:+ email.

(** A keyring is the list of addresses that have a keypair.  A symmetric
    ciphertext is [S], the passphrase, the data; an asymmetric one is [A],
    the recipient's fingerprint, a bar, the data. *)
#[export] Instance provider : Provider := {|
  Keyring := list string;
  find_key_by_email kr email _ :=
    if existsb (String.eqb email) kr
    then Some {| fingerprint := toy_fingerprint email |}
    else None;
  gen_key kr params := (name_email params :: kr)%list;
  encrypt kr data recipient sign passphrase symmetric :=
    if symmetric
    then String "S" (default "" passphrase +:+ data)
    else String "A" (recipient +:+ "|" +:+ data);
  decrypt kr data passphrase :=
    match data with
    | String "S" rest => default "" (strip (default "" passphrase) rest)
    | String "A" rest => after_bar rest
    | _ => ""
    end;
  encrypted_to kr data :=
    match data with
    | String "A" rest => {| fingerprint := before_bar rest |}
    | _ => {| fingerprint := "" |}
    end;
  is_encrypted kr data :=
    match data with
    | String "S" _ | String "A" _ => true
    | _ => false
    end;
  is_encrypted_sym kr data :=
    match data with String "S" _ => true | _ => false end;
  is_encrypted_asym kr data :=
    match data with String "A" _ => true | _ => false end
|}.

(** An instance as [Soledad('alice@leap.se', prefix='/home/alice',
    initialize=False)] leaves it. *)
Definition alice : Soledad.t :=
  {| Soledad._user_email := "alice@leap.se";
     Soledad._auth_token := None;
     Soledad.prefix := "/home/alice";
     Soledad.gnupg_home := "/home/alice/gnupg";
     Soledad.secret_path := "/home/alice/secret.gpg";
     Soledad.local_db_path := "/home/alice/soledad.u1db";
     Soledad.config_file := "/home/alice/soledad.ini";
     Soledad.soledad_server_url := "";
     Soledad._client := None; Soledad._gpg := None;
     Soledad._fingerprint := None; Soledad._secret := None;
     Soledad._db := None |}.

Definition alice_args : Soledad.InitArgs :=
  {| Soledad.arg_user_email := "alice@leap.se";
     Soledad.arg_prefix := Some "/home/alice";
     Soledad.arg_gnupg_home := None;
     Soledad.arg_secret_path := None;
     Soledad.arg_local_db_path := None;
     Soledad.arg_config_file := None;
     Soledad.arg_soledad_server_url := None;
     Soledad.arg_auth_token := None;
     Soledad.arg_initialize := true |}.

(** A disk with nothing on it and an empty keyring. *)
Definition empty_world : Soledad.World :=
  {| Soledad.files := ∅; Soledad.dirs := ∅; Soledad.environ := ∅;
     Soledad.keyring := []; Soledad.rng := 0; Soledad.calls := [] |}.

Definition alice_blob : string :=
  String "A" ("FP-alice@leap.se" +:+ "|" +:+ "s3cr3t").

(** A disk that holds [alice]'s keypair and her secret, encrypted to her
    own key. *)
Definition alice_world : Soledad.World :=
  {| Soledad.files := <["/home/alice/secret.gpg" := alice_blob]> ∅;
     Soledad.dirs := {["/home/alice"]};
     Soledad.environ := ∅;
     Soledad.keyring := ["alice@leap.se"];
     Soledad.rng := 0; Soledad.calls := [] |}.

(** The same disk with a secret file that is plain text. *)
Definition plaintext_world : Soledad.World :=
  {| Soledad.files := <["/home/alice/secret.gpg" := "s3cr3t"]> ∅;
     Soledad.dirs := {["/home/alice"]};
     Soledad.environ := ∅;
     Soledad.keyring := ["alice@leap.se"];
     Soledad.rng := 0; Soledad.calls := [] |}.

(** [alice] with the wrapper bound and her fingerprint loaded. *)
Definition alice_keyed : Soledad.t :=
  Soledad.with_fingerprint (Soledad.with_gpg alice "/home/alice/gnupg")
    "FP-alice@leap.se".

(** ... and with her secret loaded too. *)
Definition alice_ready : Soledad.t :=
  Soledad.with_secret alice_keyed "s3cr3t".

(** A store that keeps the documents put into it. *)
Definition put_doc (a : list value) (kw : list (string * value))
    (docs : list value) : SQLCipherWrapper.outcome * list value :=
  (SQLCipherWrapper.Returns (VInt (Z.of_nat (length docs))),
   (docs ++ a)%list).

Definition fail_with (a : list value) (_ : list value)
    (kw : list (string * value)) (docs : list value)
    : SQLCipherWrapper.outcome * list value :=
  (SQLCipherWrapper.Raises a, docs).

Definition close_store (a : list value) (kw : list (string * value))
    (docs : list value) : SQLCipherWrapper.outcome * list value :=
  (SQLCipherWrapper.Returns VNone, docs).

#[export] Instance store : SQLCipherWrapper.Store := {|
  SQLCipherWrapper.db := list value;
  SQLCipherWrapper.db_getattr docs name :=
    if String.eqb name "put_doc" then Some (SQLCipherWrapper.Method put_doc)
    else if String.eqb name "close"
    then Some (SQLCipherWrapper.Method close_store)
    else if String.eqb name "get_doc"
    then Some (SQLCipherWrapper.Method
                 (fail_with [VStr "no such document"]))
    else if String.eqb name "sync"
    then Some (SQLCipherWrapper.Method (fail_with []))
    else if String.eqb name "path"
    then Some (SQLCipherWrapper.Plain (VStr "/home/alice/soledad.u1db"))
    else None
|}.

(** The states the manager is run on. *)
Definition ready_state : Soledad.State :=
  {| Soledad.self := alice_ready; Soledad.world := alice_world |}.

Definition keyed_state : Soledad.State :=
  {| Soledad.self := alice_keyed; Soledad.world := alice_world |}.

Definition fresh_state : Soledad.State :=
  {| Soledad.self := alice; Soledad.world := alice_world |}.

Definition blank_state : Soledad.State :=
  {| Soledad.self := alice; Soledad.world := empty_world |}.

Definition plaintext_state : Soledad.State :=
  {| Soledad.self := alice_keyed; Soledad.world := plaintext_world |}.

(** A wrapper over the empty store, and wrappers with one request
    queued. *)
Definition wrapper0 : SQLCipherWrapper.t := SQLCipherWrapper.init [].

Definition failing_request : SQLCipherWrapper.request :=
  {| SQLCipherWrapper.mth := "get_doc"; SQLCipherWrapper.reply := 0;
     SQLCipherWrapper.args := [VStr "doc-1"];
     SQLCipherWrapper.kwargs := [] |}.

Definition failing_call_state : SQLCipherWrapper.t :=
  SQLCipherWrapper.queue_put "get_doc" [VStr "doc-1"] [] wrapper0.

Definition unknown_request : SQLCipherWrapper.request :=
  {| SQLCipherWrapper.mth := "no_such_method"; SQLCipherWrapper.reply := 0;
     SQLCipherWrapper.args := []; SQLCipherWrapper.kwargs := [] |}.

Definition unknown_call_state : SQLCipherWrapper.t :=
  SQLCipherWrapper.queue_put "no_such_method" [] [] wrapper0.

Definition end_thread_request : SQLCipherWrapper.request :=
  {| SQLCipherWrapper.mth := "__end_thread"; SQLCipherWrapper.reply := 0;
     SQLCipherWrapper.args := []; SQLCipherWrapper.kwargs := [] |}.

Definition end_thread_state : SQLCipherWrapper.t :=
  SQLCipherWrapper.queue_put "__end_thread" [] [] wrapper0.

(** Two callers put a document each, the worker serves both, the callers
    take their replies. *)
Definition two_callers : list SQLCipherWrapper.action :=
  [ SQLCipherWrapper.ActPut "put_doc" [VStr "a"] [];
    SQLCipherWrapper.ActWorker;
    SQLCipherWrapper.ActPut "put_doc" [VStr "b"] [];
    SQLCipherWrapper.ActWorker; SQLCipherWrapper.ActWorker;
    SQLCipherWrapper.ActWorker; SQLCipherWrapper.ActWorker;
    SQLCipherWrapper.ActReceive 0;
    SQLCipherWrapper.ActWorker; SQLCipherWrapper.ActWorker;
    SQLCipherWrapper.ActWorker;
    SQLCipherWrapper.ActReceive 1 ].

(** [Soledad('alice@leap.se', prefix='/home/alice', initialize=False)]. *)
Definition alice_args_lazy : Soledad.InitArgs :=
  {| Soledad.arg_user_email := "alice@leap.se";
     Soledad.arg_prefix := Some "/home/alice";
     Soledad.arg_gnupg_home := None;
     Soledad.arg_secret_path := None;
     Soledad.arg_local_db_path := None;
     Soledad.arg_config_file := None;
     Soledad.arg_soledad_server_url := None;
     Soledad.arg_auth_token := None;
     Soledad.arg_initialize := false |}.

(** [alice] with the wrapper bound and nothing else, on an empty disk. *)
Definition alice_bound : Soledad.t :=
  Soledad.with_gpg alice "/home/alice/gnupg".

Definition bound_blank_state : Soledad.State :=
  {| Soledad.self := alice_bound; Soledad.world := empty_world |}.

(** A disk that has [alice]'s directory and nothing in it, and an empty
    keyring. *)
Definition home_world : Soledad.World :=
  {| Soledad.files := ∅; Soledad.dirs := {["/home/alice"]};
     Soledad.environ := ∅;
     Soledad.keyring := []; Soledad.rng := 0; Soledad.calls := [] |}.

Definition bound_home_state : Soledad.State :=
  {| Soledad.self := alice_bound; Soledad.world := home_world |}.

(** [alice] with her fingerprint cached, over her empty directory and
    over the disk that lacks it. *)
Definition keyed_home_state : Soledad.State :=
  {| Soledad.self := alice_keyed; Soledad.world := home_world |}.

Definition keyed_blank_state : Soledad.State :=
  {| Soledad.self := alice_keyed; Soledad.world := empty_world |}.

(** ... and on the disk that has her keypair and her secret. *)
Definition bound_state : Soledad.State :=
  {| Soledad.self := alice_bound; Soledad.world := alice_world |}.

(** Wrappers with one request queued for a method that returns, for a
    plain attribute, and for a method that raises without arguments. *)
Definition put_request : SQLCipherWrapper.request :=
  {| SQLCipherWrapper.mth := "put_doc"; SQLCipherWrapper.reply := 0;
     SQLCipherWrapper.args := [VStr "a"]; SQLCipherWrapper.kwargs := [] |}.

Definition put_state : SQLCipherWrapper.t :=
  SQLCipherWrapper.queue_put "put_doc" [VStr "a"] [] wrapper0.

Definition path_request : SQLCipherWrapper.request :=
  {| SQLCipherWrapper.mth := "path"; SQLCipherWrapper.reply := 0;
     SQLCipherWrapper.args := []; SQLCipherWrapper.kwargs := [] |}.

Definition path_state : SQLCipherWrapper.t :=
  SQLCipherWrapper.queue_put "path" [] [] wrapper0.

Definition sync_request : SQLCipherWrapper.request :=
  {| SQLCipherWrapper.mth := "sync"; SQLCipherWrapper.reply := 0;
     SQLCipherWrapper.args := []; SQLCipherWrapper.kwargs := [] |}.

Definition sync_state : SQLCipherWrapper.t :=
  SQLCipherWrapper.queue_put "sync" [] [] wrapper0.

(** Two documents queued. *)
Definition two_puts_state : SQLCipherWrapper.t :=
  SQLCipherWrapper.queue_put "put_doc" [VStr "b"] [] put_state.

(** Callers only: two puts and a read of a reply that has not come. *)
Definition callers_only : list SQLCipherWrapper.action :=
  [ SQLCipherWrapper.ActPut "put_doc" [VStr "a"] [];
    SQLCipherWrapper.ActReceive 0;
    SQLCipherWrapper.ActPut "put_doc" [VStr "b"] [] ].

(** A store that is a counter: [count] is a plain attribute, zero at
    first. *)
Definition counter : SQLCipherWrapper.Store :=
  {| SQLCipherWrapper.db := nat;
     SQLCipherWrapper.db_getattr n name :=
       if String.eqb name "count"
       then Some (SQLCipherWrapper.Plain (VInt (Z.of_nat n)))
       else if String.eqb name "incr"
       then Some (SQLCipherWrapper.Method
                    (fun _ _ k => (SQLCipherWrapper.Returns VNone, S k)))
       else None |}.

Definition count_request : SQLCipherWrapper.request :=
  {| SQLCipherWrapper.mth := "count"; SQLCipherWrapper.reply := 0;
     SQLCipherWrapper.args := []; SQLCipherWrapper.kwargs := [] |}.

Definition count_state : @SQLCipherWrapper.t counter :=
  @SQLCipherWrapper.queue_put counter "count" [] []
    (@SQLCipherWrapper.init counter 0).

End Toy.

(** * Properties of the key lifecycle manager *)

Section SoledadFacts.

Import GPG Soledad Spec.
Context {RT : Runtime} {P : Provider}.

(** Unfold the methods and run the monad. *)
Ltac reduce_fields :=
  cbn [_gpg _fingerprint _secret _db _client _user_email secret_path
       prefix gnupg_home local_db_path
       with_secret with_fingerprint with_gpg with_db with_client
       files dirs keyring rng calls environ
       with_files with_dirs with_keyring with_rng].

Ltac run_method :=
  cbv beta iota zeta delta
    [_bootstrap _load_secret _gen_secret _has_secret
     Soledad.is_encrypted_asym
     _has_keys _has_openpgp_keypair _load_openpgp_keypair
     _gen_openpgp_keypair _load_keys _init_keys _init_db _init_dirs
     _retrieve_keys encrypt_symmetric decrypt_symmetric Soledad.encrypt
     Soledad.decrypt _hmac_passphrase write_file log
     bind ret raise attr get_self get_world set_self set_world
     try_except unbound_attribute self world negb];
  reduce_fields.

(** The bootstrap with [_init_keys] left folded. *)
Ltac run_bootstrap :=
  cbv beta iota zeta delta
    [_bootstrap _init_dirs _has_keys _has_openpgp_keypair _retrieve_keys
     Client_request_json log
     bind ret raise attr get_self get_world set_self set_world
     try_except unbound_attribute self world negb];
  reduce_fields.

(** Case analysis on everything a method inspects. *)
Ltac split_cases :=
  repeat (match goal with
          | |- context [match ?x with _ => _ end] =>
              match type of x with
              | option _ => destruct x eqn:?
              | bool => destruct x eqn:?
              end; run_method
          end).

(** ** What [_has_secret] answers once the fingerprint is cached *)

Lemma has_secret_cases (s : t) (w : World) (home fp : string) :
  _gpg s = Some home ->
  _fingerprint s = Some fp ->
  _has_secret {| self := s; world := w |} =
    (match files w !! secret_path s with
     | None => Ok false
     | Some c =>
         if negb (GPG.is_encrypted_asym (keyring w) c)
         then Raise DocumentNotEncrypted
         else if negb (String.eqb (fingerprint (encrypted_to (keyring w) c))
                         fp)
              then Raise KeyDoesNotExist
              else Ok true
     end, {| self := s; world := w |}).
Proof.
  intros Hg Hf. run_method.
  destruct (files w !! secret_path s) as [c|]; [|done].
  rewrite Hg; run_method.
  destruct (GPG.is_encrypted_asym (keyring w) c); run_method; [|done].
  rewrite Hg, Hf; run_method.
  by destruct (String.eqb _ fp).
Qed.

(** ** The fresh secret *)

Lemma random_string_length (alphabet : string) (n k : nat) :
  String.length (random_string alphabet k n) = n.
Proof.
  revert k. induction n as [|n IH]; intros k; simpl; [done|]. by rewrite IH.
Qed.

Lemma get_string_mem (s : string) (i : nat) (c : ascii) :
  String.get i s = Some c -> string_mem c s = true.
Proof.
  revert i. induction s as [|d s IH]; intros i; simpl; [done|].
  destruct i as [|i].
  - intros [= ->]. by rewrite Ascii.eqb_refl.
  - intros H. rewrite (IH _ H). apply orb_true_r.
Qed.

Lemma get_in_range (s : string) (i : nat) :
  i < String.length s -> is_Some (String.get i s).
Proof.
  revert i. induction s as [|d s IH]; intros i; simpl; [lia|].
  destruct i as [|i]; [by eexists|]. intros H. apply IH. lia.
Qed.

Lemma choice_mem (alphabet : string) (d : nat) :
  String.length alphabet <> 0 ->
  string_mem (choice alphabet d) alphabet = true.
Proof.
  intros Hne. unfold choice.
  destruct (get_in_range alphabet (d mod String.length alphabet)) as [c Hc].
  { by apply Nat.mod_upper_bound. }
  rewrite Hc. by eapply get_string_mem.
Qed.

Lemma random_string_alphabet (alphabet : string) (n k : nat) :
  String.length alphabet <> 0 ->
  string_forall (fun c => string_mem c alphabet)
    (random_string alphabet k n) = true.
Proof.
  intros Hne. revert k. induction n as [|n IH]; intros k; simpl; [done|].
  by rewrite choice_mem, IH.
Qed.

(** ** Methods that stay local *)

Lemma local_only_refl (st : State) : local_only st st.
Proof. split; [done|]. exists []. by rewrite app_nil_r. Qed.

Lemma local_only_trans (st1 st2 st3 : State) :
  local_only st1 st2 -> local_only st2 st3 -> local_only st1 st3.
Proof.
  intros [Hd1 (l1 & Hc1 & Hl1)] [Hd2 (l2 & Hc2 & Hl2)]. split.
  - by rewrite Hd2.
  - exists (l1 ++ l2)%list. rewrite Hc2, Hc1, <- app_assoc.
    split; [done|]. rewrite forallb_app. by rewrite Hl1, Hl2.
Qed.

Lemma bind_local {A B} (m : M A) (k : A -> M B) :
  (forall st, local_only st (snd (m st))) ->
  (forall a st, local_only st (snd (k a st))) ->
  forall st, local_only st (snd (bind m k st)).
Proof.
  intros Hm Hk st. unfold bind. specialize (Hm st).
  destruct (m st) as [[a|e] st']; [|done].
  eapply local_only_trans; [exact Hm|]. apply Hk.
Qed.

Ltac local_by_cases :=
  intros [s w]; run_method; split_cases; cbn [snd self world];
  (split; [done|]); reduce_fields;
  first [ by (exists []; rewrite app_nil_r)
        | by (rewrite <- ?app_assoc; eexists; split; [reflexivity|]) ].

Lemma has_openpgp_keypair_local (st : State) :
  local_only st (snd (_has_openpgp_keypair st)).
Proof. revert st. local_by_cases. Qed.

Lemma gen_openpgp_keypair_local (st : State) :
  local_only st (snd (_gen_openpgp_keypair st)).
Proof. revert st. local_by_cases. Qed.

Lemma load_openpgp_keypair_local (st : State) :
  local_only st (snd (_load_openpgp_keypair st)).
Proof. revert st. local_by_cases. Qed.

Lemma has_secret_local (st : State) : local_only st (snd (_has_secret st)).
Proof. revert st. local_by_cases. Qed.

Lemma gen_secret_local (st : State) : local_only st (snd (_gen_secret st)).
Proof. revert st. local_by_cases. Qed.

Lemma load_secret_local (st : State) : local_only st (snd (_load_secret st)).
Proof. revert st. local_by_cases. Qed.

Lemma local_calls_are_not_publications (l : list call) :
  forallb (fun c => negb (is_remote c)) l = true ->
  forallb (fun c =>
             match c with
             | RemoteRequest m _ => String.eqb m "GET"
             | _ => true
             end) l = true.
Proof.
  induction l as [|c l IH]; [done|]. cbn [forallb].
  intros [Hc Hl]%andb_true_iff. rewrite (IH Hl). by destruct c.
Qed.

Lemma init_keys_local (st : State) : local_only st (snd (_init_keys st)).
Proof.
  revert st. unfold _init_keys.
  apply bind_local; [apply has_openpgp_keypair_local|]. intros kp.
  apply bind_local.
  { destruct kp; [apply local_only_refl | apply gen_openpgp_keypair_local]. }
  intros _. apply bind_local; [apply load_openpgp_keypair_local|]. intros _.
  apply bind_local; [apply has_secret_local|]. intros sec.
  apply bind_local; [|intros _; apply load_secret_local].
  destruct sec; [apply local_only_refl | apply gen_secret_local].
Qed.

(** ** Symmetric encryption of documents *)

(** Claim C1.  On a manager that is ready, and with a provider whose
    symmetric mode gives the data back under the passphrase that encrypted
    it, [decrypt_symmetric(doc_id, encrypt_symmetric(doc_id, data))] is
    [data], for every document id, every data and every signer: both
    calls succeed, leave the state alone, and hand the provider the same
    passphrase, the HMAC of the loaded secret and the document id. *)
Theorem C1_symmetric_round_trip :
  symmetric_round_trip P ->
  forall (st : State) (doc_id data : string) (sign : option string),
    READY (self st) ->
    exists (fp secret c : string),
      _fingerprint (self st) = Some fp /\
      _secret (self st) = Some secret /\
      c = GPG.encrypt (keyring (world st)) data fp sign
            (Some (hmac_hexdigest secret doc_id)) true /\
      encrypt_symmetric doc_id data sign st = (Ok c, st) /\
      decrypt_symmetric doc_id c st = (Ok data, st).
Proof.
  intros Hrt [s w] doc_id data sign (Hg & Hf & Hs). cbn [self world] in *.
  destruct Hg as [home Hg], Hf as [fp Hf], Hs as [secret Hs].
  exists fp, secret. eexists. do 3 (split; [reflexivity || eassumption|]).
  run_method. rewrite Hs; run_method. rewrite Hg; run_method.
  rewrite Hf; run_method. by rewrite Hrt.
Qed.

(** ** Loading and generating the secret *)

(** [_load_secret] by cases on everything it inspects, in the order in
    which it inspects it. *)
Lemma load_secret_by_cases (s : t) (w : World) :
  _load_secret {| self := s; world := w |} =
    match files w !! secret_path s with
    | None => (Raise KeyDoesNotExist, {| self := s; world := w |})
    | Some c =>
        match _gpg s with
        | None => (Raise (AttributeError "_gpg"), {| self := s; world := w |})
        | Some _ =>
            if negb (GPG.is_encrypted_asym (keyring w) c)
            then (Raise DocumentNotEncrypted, {| self := s; world := w |})
            else
              match _fingerprint s with
              | None =>
                  (Raise (AttributeError "_fingerprint"),
                   {| self := s; world := w |})
              | Some fp =>
                  if negb (String.eqb
                             (fingerprint (encrypted_to (keyring w) c)) fp)
                  then (Raise KeyDoesNotExist, {| self := s; world := w |})
                  else
                    (Ok tt,
                     {| self :=
                          with_secret s (GPG.decrypt (keyring w) c None);
                        world := w |})
              end
        end
    end.
Proof.
  run_method.
  destruct (files w !! secret_path s) as [c|] eqn:Hfile; [|done].
  destruct (_gpg s) as [home|] eqn:Hg; run_method; [|done].
  destruct (GPG.is_encrypted_asym (keyring w) c); run_method; [|done].
  rewrite Hg; run_method.
  destruct (_fingerprint s) as [fp|]; run_method; [|done].
  destruct (String.eqb _ fp); run_method; [|done].
  rewrite Hfile, Hg. by run_method.
Qed.

(** Claim C6, as amended.  [_load_secret] raises [KeyDoesNotExist] when
    there is no secret file, whatever else is bound; with the wrapper
    bound it raises [DocumentNotEncrypted] when the file is not
    asymmetrically encrypted; with a fingerprint cached as well it raises
    [KeyDoesNotExist] when the file is encrypted to another fingerprint,
    and in the one remaining case it decrypts the file and binds
    [_secret] to the result, touching neither the other attributes nor
    the disk.  It succeeds exactly when the wrapper is bound, a
    fingerprint is cached and the file is asymmetrically encrypted to
    that fingerprint.  The precondition is needed: a file with the
    wrapper unbound, and an asymmetrically encrypted file with no
    fingerprint cached, end in [AttributeError].  The failing calls
    change nothing. *)
Theorem C6_load_secret_cases (st : State) :
  let kr := keyring (world st) in
  let file := files (world st) !! secret_path (self st) in
  (file = None -> _load_secret st = (Raise KeyDoesNotExist, st)) /\
  (forall c home, file = Some c -> _gpg (self st) = Some home ->
     GPG.is_encrypted_asym kr c = false ->
     _load_secret st = (Raise DocumentNotEncrypted, st)) /\
  (forall c home fp, file = Some c -> _gpg (self st) = Some home ->
     _fingerprint (self st) = Some fp ->
     GPG.is_encrypted_asym kr c = true ->
     fingerprint (encrypted_to kr c) <> fp ->
     _load_secret st = (Raise KeyDoesNotExist, st)) /\
  (forall c home fp, file = Some c -> _gpg (self st) = Some home ->
     _fingerprint (self st) = Some fp ->
     GPG.is_encrypted_asym kr c = true ->
     fingerprint (encrypted_to kr c) = fp ->
     exists st', _load_secret st = (Ok tt, st') /\
       _secret (self st') = Some (GPG.decrypt kr c None) /\
       _fingerprint (self st') = Some fp /\
       _gpg (self st') = Some home /\
       _db (self st') = _db (self st) /\
       _client (self st') = _client (self st) /\
       _user_email (self st') = _user_email (self st) /\
       secret_path (self st') = secret_path (self st) /\
       world st' = world st) /\
  (is_ok (fst (_load_secret st)) = true <->
   exists c home fp, file = Some c /\ _gpg (self st) = Some home /\
     _fingerprint (self st) = Some fp /\
     GPG.is_encrypted_asym kr c = true /\
     fingerprint (encrypted_to kr c) = fp) /\
  (forall c, file = Some c -> _gpg (self st) = None ->
     _load_secret st = (Raise (AttributeError "_gpg"), st)) /\
  (forall c home, file = Some c -> _gpg (self st) = Some home ->
     GPG.is_encrypted_asym kr c = true ->
     _fingerprint (self st) = None ->
     _load_secret st = (Raise (AttributeError "_fingerprint"), st)).
Proof.
  destruct st as [s w]. intros kr file. cbn [self world] in *.
  rewrite (load_secret_by_cases s w). fold kr file.
  split; [|split; [|split; [|split; [|split; [|split]]]]].
  - by intros ->.
  - by intros c home -> -> ->.
  - intros c home fp -> -> -> -> Hne.
    apply String.eqb_neq in Hne. by rewrite Hne.
  - intros c home fp -> Hg Hf -> Heq. rewrite Hg, Hf.
    apply String.eqb_eq in Heq. rewrite Heq. cbn [negb].
    eexists. split; [reflexivity|]. cbn [self world].
    by destruct s.
  - split.
    + destruct file as [c|]; [|done].
      destruct (_gpg s) as [home|]; [|done].
      destruct (GPG.is_encrypted_asym kr c) eqn:Ha; [|done].
      destruct (_fingerprint s) as [fp|]; [|done].
      destruct (String.eqb _ fp) eqn:He; [|done].
      intros _. exists c, home, fp. apply String.eqb_eq in He.
      by repeat split.
    + intros (c & home & fp & -> & -> & -> & -> & Heq).
      apply String.eqb_eq in Heq. by rewrite Heq.
  - by intros c -> ->.
  - by intros c home -> -> -> ->.
Qed.

(** Claim C5, as amended.  With the wrapper bound and a fingerprint
    cached: when a valid blob exists, [_gen_secret] raises
    [KeyAlreadyExists] and changes nothing; when there is no file at the
    secret path and the path can be opened for writing, it draws fifty
    characters from the letters and digits, binds them to [_secret],
    encrypts them to the cached fingerprint (signing with it) and writes
    the result to the secret path, leaving every other file as it was;
    when there is no file and the path cannot be opened for writing (its
    directory is missing, or it is a directory), the fresh secret is
    bound to [_secret] all the same, [IOError] is raised and no file is
    written; when a file exists that is not asymmetrically encrypted, or
    that is encrypted to another fingerprint, it raises
    [DocumentNotEncrypted], respectively [KeyDoesNotExist], and changes
    nothing. *)
Theorem C5_gen_secret_cases (st : State) (home fp : string) :
  _gpg (self st) = Some home ->
  _fingerprint (self st) = Some fp ->
  let kr := keyring (world st) in
  let path := secret_path (self st) in
  let file := files (world st) !! path in
  let alphabet := ascii_letters +:+ digits in
  let secret := random_string alphabet (rng (world st)) SECRET_LENGTH in
  (forall c, file = Some c -> GPG.is_encrypted_asym kr c = true ->
     fingerprint (encrypted_to kr c) = fp ->
     _gen_secret st = (Raise KeyAlreadyExists, st)) /\
  (file = None ->
     can_open_for_writing (dirs (world st)) path = true ->
     String.length secret = 50 /\
     string_forall (fun c => string_mem c alphabet) secret = true /\
     exists st', _gen_secret st = (Ok tt, st') /\
       _secret (self st') = Some secret /\
       _fingerprint (self st') = Some fp /\
       files (world st') =
         <[path := GPG.encrypt kr secret fp (Some fp) None false]>
           (files (world st)) /\
       dirs (world st') = dirs (world st) /\
       keyring (world st') = kr) /\
  (file = None ->
     can_open_for_writing (dirs (world st)) path = false ->
     exists st', _gen_secret st = (Raise IOError, st') /\
       _secret (self st') = Some secret /\
       files (world st') = files (world st) /\
       dirs (world st') = dirs (world st) /\
       keyring (world st') = kr) /\
  (forall c, file = Some c -> GPG.is_encrypted_asym kr c = false ->
     _gen_secret st = (Raise DocumentNotEncrypted, st)) /\
  (forall c, file = Some c -> GPG.is_encrypted_asym kr c = true ->
     fingerprint (encrypted_to kr c) <> fp ->
     _gen_secret st = (Raise KeyDoesNotExist, st)).
Proof.
  destruct st as [s w]. intros Hg Hf kr path file alphabet secret.
  cbn [self world] in *.
  assert (Hhas := has_secret_cases s w home fp Hg Hf).
  fold path file kr in Hhas.
  split; [|split; [|split; [|split]]].
  - intros c Hc Ha He. unfold _gen_secret, bind at 1. rewrite Hhas, Hc, Ha.
    apply String.eqb_eq in He. by rewrite He.
  - intros Hc Hw. split; [apply random_string_length|].
    split; [by apply random_string_alphabet|].
    unfold _gen_secret, bind at 1. rewrite Hhas, Hc.
    eexists. split.
    + run_method. rewrite Hg; run_method. rewrite Hf; run_method.
      fold path. rewrite Hw. reflexivity.
    + cbn [self world]. reduce_fields. by destruct s.
  - intros Hc Hw.
    unfold _gen_secret, bind at 1. rewrite Hhas, Hc.
    eexists. split.
    + run_method. rewrite Hg; run_method. rewrite Hf; run_method.
      fold path. rewrite Hw. reflexivity.
    + cbn [self world]. reduce_fields. by destruct s.
  - intros c Hc Ha. unfold _gen_secret, bind at 1. by rewrite Hhas, Hc, Ha.
  - intros c Hc Ha He. unfold _gen_secret, bind at 1. rewrite Hhas, Hc, Ha.
    apply String.eqb_neq in He. by rewrite He.
Qed.

(** ** Bootstrap *)

(** Claim C3, where the code departs from it.  On an instance whose
    fingerprint has not been loaded yet, as every instance is when
    [_bootstrap] starts for the first time, a keypair in the keyring and
    an asymmetrically encrypted secret file make [_bootstrap] raise
    [AttributeError] for [_fingerprint]: [_has_keys] reaches the
    comparison in [_has_secret] before anything has bound the attribute.
    Neither the fingerprint nor the secret nor the database is loaded. *)
Theorem C3_bootstrap_with_local_keys_raises (st : State) (c : string) :
  _fingerprint (self st) = None ->
  is_Some (find_key_by_email (keyring (world st))
             (_user_email (self st)) true) ->
  files (world st) !! secret_path (self st) = Some c ->
  GPG.is_encrypted_asym (keyring (world st)) c = true ->
  exists st',
    _bootstrap st = (Raise (AttributeError "_fingerprint"), st') /\
    _fingerprint (self st') = None /\
    _secret (self st') = _secret (self st) /\
    _db (self st') = _db (self st) /\
    calls (world st') = calls (world st).
Proof.
  destruct st as [s w]. cbn [self world]. intros Hf [info Hk] Hc Ha.
  run_method.
  destruct (bool_decide (prefix s ∈ dirs w)); run_method.
  all: rewrite Hk; run_method.
  all: rewrite Hc; run_method; rewrite Ha; run_method;
      rewrite Hf; by eexists.
Qed.

(** Claim C7, where the code departs from it.  With no keypair in the
    keyring and a remote retrieval that raises, [_bootstrap] itself
    raises: after [_init_keys] the handler asks for [self._send_keys],
    which the class does not define.  The database is not opened, and
    apart from the request of [_retrieve_keys] nothing is sent to the
    remote collaborator. *)
Theorem C7_bootstrap_fallback_raises (st : State) :
  find_key_by_email (keyring (world st)) (_user_email (self st)) true
    = None ->
  retrieval_raises (self st) ->
  has_attribute "_send_keys" = false /\
  exists e st' l,
    _bootstrap st = (Raise e, st') /\
    _db (self st') = _db (self st) /\
    calls (world st') = (calls (world st) ++ l)%list /\
    forallb (fun c =>
               match c with
               | RemoteRequest m _ => String.eqb m "GET"
               | _ => true
               end) l = true.
Proof.
  intros Hk Hr. split; [reflexivity|]. revert Hk Hr.
  destruct st as [s w]. unfold retrieval_raises. cbn [self world].
  intros Hk Hr. run_bootstrap.
  destruct (bool_decide (prefix s ∈ dirs w)); run_bootstrap.
  all: rewrite Hk; run_bootstrap.
  all: destruct (_client s) as [c|];
    [destruct Hr as [e0 Hr]; run_bootstrap; rewrite Hr|]; run_bootstrap.
  all: match goal with
       | |- context [_init_keys ?x] =>
           destruct (init_keys_local x) as [Hd (l & Hl & Hn)];
           destruct (_init_keys x) as [[[]|e] st2]
       end;
       destruct st2 as [s2 w2]; cbn [snd self world] in Hd, Hl;
       cbn [_db with_gpg calls] in Hd, Hl; rewrite <- ?app_assoc in Hl.
  all: eexists _, _, _; split; [reflexivity|]; cbn [self world].
  all: split; [exact Hd|]; split; [exact Hl|].
  all: cbn [app forallb]; rewrite ?String.eqb_refl; cbn [andb].
  all: by apply local_calls_are_not_publications.
Qed.

(** ** Construction *)

(** Claim C4.  With [initialize] left at [True] the constructor never
    returns an instance: whatever the arguments and the world, an
    exception leaves [__init__].  The class binds [_bootstrap] and no
    [bootstrap], so when the configuration has been read and there is no
    server URL the exception is [AttributeError] for [bootstrap]. *)
Theorem C4_constructor_always_raises (a : InitArgs) (w : World) :
  arg_initialize a = true ->
  has_attribute "bootstrap" = false /\
  has_attribute "_bootstrap" = true /\
  exists e,
    __init__ a w = (Raise e, w) /\
    (forall s, _init_config a w = Ok s -> soledad_server_url s = "" ->
               e = AttributeError "bootstrap").
Proof.
  intros Hi. split; [reflexivity|]. split; [reflexivity|].
  unfold __init__. destruct (_init_config a w) as [s|e].
  - destruct (String.eqb (soledad_server_url s) "") eqn:Hu; simpl.
    + rewrite Hi. eexists. split; [reflexivity|]. done.
    + eexists. split; [reflexivity|]. intros s' [= <-] Hs.
      rewrite Hs in Hu. done.
  - exists e. split; [done|]. done.
Qed.

(** * Further properties of the key lifecycle manager *)

(** ** The existence checks *)

Lemma has_openpgp_keypair_state (st : State) :
  snd (_has_openpgp_keypair st) = st.
Proof. destruct st as [s w]. run_method. split_cases; done. Qed.

Lemma has_secret_state (st : State) : snd (_has_secret st) = st.
Proof. destruct st as [s w]. run_method. split_cases; done. Qed.

Lemma has_keys_state (st : State) : snd (_has_keys st) = st.
Proof.
  unfold _has_keys, bind.
  pose proof (has_openpgp_keypair_state st) as Hk.
  destruct (_has_openpgp_keypair st) as [[[|]|e] st']; simpl in Hk; subst;
    [apply has_secret_state|done..].
Qed.

Lemma twice_is_once {A} (m : M A) (st : State) :
  snd (m st) = st -> bind m (fun _ => m) st = m st.
Proof.
  intros H. unfold bind. destruct (m st) as [[a|e] st'] eqn:Hm.
  - simpl in H. subst. exact Hm.
  - reflexivity.
Qed.

(** [_has_openpgp_keypair], [_has_secret] and [_has_keys] leave the
    instance and the world as they found them, whatever they answer or
    raise; so asking twice in a row gives what asking once gives. *)
Theorem checks_change_nothing (st : State) :
  snd (_has_openpgp_keypair st) = st /\
  snd (_has_secret st) = st /\
  snd (_has_keys st) = st /\
  bind _has_openpgp_keypair (fun _ => _has_openpgp_keypair) st
    = _has_openpgp_keypair st /\
  bind _has_secret (fun _ => _has_secret) st = _has_secret st /\
  bind _has_keys (fun _ => _has_keys) st = _has_keys st.
Proof.
  pose proof (has_openpgp_keypair_state st).
  pose proof (has_secret_state st). pose proof (has_keys_state st).
  repeat split; try done; by apply twice_is_once.
Qed.

(** Without a keypair [_has_keys] answers [False] and does not look at
    the secret file: a plain-text or foreign file goes unnoticed. *)
Theorem has_keys_without_keypair (st : State) (home : string) :
  _gpg (self st) = Some home ->
  find_key_by_email (keyring (world st)) (_user_email (self st)) true
    = None ->
  _has_keys st = (Ok false, st).
Proof.
  destruct st as [s w]. cbn [self world]. intros Hg Hk.
  run_method. rewrite Hg; run_method. by rewrite Hk.
Qed.

(** ** Bootstrap on an instance without a cached fingerprint *)

(** Everything of [_bootstrap] unfolded except [_init_keys]. *)
Ltac run_stages :=
  cbv beta iota zeta delta
    [_bootstrap _init_dirs _has_keys _has_openpgp_keypair _retrieve_keys
     _load_keys _load_openpgp_keypair _load_secret _has_secret
     Soledad.is_encrypted_asym _init_db
     Client_request_json log
     bind ret raise attr get_self get_world set_self set_world
     try_except unbound_attribute self world negb];
  reduce_fields.

Ltac split_stages :=
  repeat (match goal with
          | |- context [_init_keys ?x] =>
              destruct (_init_keys x) as [[[]|?] ?]; run_stages
          | |- context [match ?x with _ => _ end] =>
              match type of x with
              | option _ => destruct x eqn:?
              | bool => destruct x eqn:?
              end; run_stages
          end).

Lemma bootstrap_raises_uncached (s : t) (w : World) :
  _fingerprint s = None ->
  exists e st', _bootstrap {| self := s; world := w |} = (Raise e, st').
Proof.
  intros Hf.
  run_stages. rewrite ?Hf. split_stages; rewrite ?Hf; run_stages;
    try (by eauto); congruence.
Qed.

(** As long as nothing has bound [_fingerprint], [_bootstrap] cannot
    return normally, whatever is on disk, in the keyring or on the
    server: with local keys the check itself raises, and without them
    either the fallback ends in the missing [_send_keys] or, when the
    retrieval succeeds, nothing was stored for [_load_keys] to load. *)
Theorem bootstrap_needs_cached_fingerprint (st : State) :
  _fingerprint (self st) = None ->
  exists e st', _bootstrap st = (Raise e, st').
Proof. destruct st as [s w]. apply bootstrap_raises_uncached. Qed.

(** ** Bootstrap with the fingerprint cached *)

(** Stage 3.  With the fingerprint cached, a keypair in the keyring whose
    fingerprint it is, and a secret file encrypted to it, [_bootstrap]
    returns: it creates the work directory if needed, loads the
    fingerprint and the decrypted secret, and opens the database at
    [local_db_path] with that secret.  It writes no file, leaves the
    keyring alone and calls neither the server nor a generator. *)
Theorem bootstrap_loads_local_keys (st : State) (fp c : string)
    (info : KeyInfo) :
  _fingerprint (self st) = Some fp ->
  is_Some (find_key_by_email (keyring (world st))
             (_user_email (self st)) true) ->
  find_key_by_email (keyring (world st)) (_user_email (self st)) false
    = Some info ->
  fingerprint info = fp ->
  files (world st) !! secret_path (self st) = Some c ->
  GPG.is_encrypted_asym (keyring (world st)) c = true ->
  fingerprint (encrypted_to (keyring (world st)) c) = fp ->
  let secret := GPG.decrypt (keyring (world st)) c None in
  exists st',
    _bootstrap st = (Ok tt, st') /\
    _gpg (self st') = Some (gnupg_home (self st)) /\
    _fingerprint (self st') = Some fp /\
    _secret (self st') = Some secret /\
    _db (self st') =
      Some {| db_path := local_db_path (self st); db_secret := secret |} /\
    files (world st') = files (world st) /\
    keyring (world st') = keyring (world st) /\
    calls (world st') = calls (world st) /\
    prefix (self st) ∈ dirs (world st').
Proof.
  destruct st as [s w]. cbn [self world].
  intros Hf [i1 Hk1] Hk2 Hi Hc Ha He. subst fp.
  pose proof (String.eqb_refl (fingerprint info)) as Hrefl.
  run_stages.
  destruct (bool_decide (prefix s ∈ dirs w)) eqn:Hdir; run_stages.
  all: repeat (first [ rewrite Hk1 | rewrite Hk2 | rewrite Hc | rewrite Ha
                     | rewrite Hf | rewrite He | rewrite Hrefl ];
               run_stages).
  all: eexists; split; [reflexivity|]; cbn [self world]; reduce_fields.
  all: repeat split; try done.
  - by apply bool_decide_eq_true in Hdir.
  - set_solver.
Qed.

(** ** Construction without bootstrap *)

Lemma init_config_shape (a : InitArgs) (w : World) (s : t) :
  _init_config a w = Ok s ->
  _user_email s = arg_user_email a /\ _auth_token s = arg_auth_token a /\
  _client s = None /\ _gpg s = None /\ _fingerprint s = None /\
  _secret s = None /\ _db s = None.
Proof.
  unfold _init_config, rbind.
  repeat (match goal with
          | |- context [match ?x with _ => _ end] => destruct x; try done
          end).
  by intros [= <-].
Qed.

(** The constructor returns an instance only when [initialize] is false
    and no server URL is configured; the instance then carries the
    address and the token it was given and none of the client, the GnuPG
    wrapper, the fingerprint, the secret or the database, and the world
    is untouched.  Such an instance cannot be bootstrapped, whatever the
    world it is later run in. *)
Theorem constructor_returns_bare_instance (a : InitArgs) (w w' : World)
    (s : t) :
  __init__ a w = (Ok s, w') ->
  arg_initialize a = false /\ w' = w /\ soledad_server_url s = "" /\
  _user_email s = arg_user_email a /\ _auth_token s = arg_auth_token a /\
  _client s = None /\ _gpg s = None /\ _fingerprint s = None /\
  _secret s = None /\ _db s = None /\
  forall w'', exists e st',
    _bootstrap {| self := s; world := w'' |} = (Raise e, st').
Proof.
  unfold __init__. destruct (_init_config a w) as [s0|e] eqn:Hconf; [|done].
  destruct (String.eqb (soledad_server_url s0) "") eqn:Hurl; [|done].
  cbn [negb]. destruct (arg_initialize a); [done|]. intros [= <- <-].
  destruct (init_config_shape a w s0 Hconf) as (? & ? & ? & ? & Hf & ? & ?).
  apply String.eqb_eq in Hurl.
  repeat split; try done.
  intros w''. by apply bootstrap_raises_uncached.
Qed.

(** ** Configuration *)

Ltac split_config :=
  unfold _init_config, rbind; cbn [param_conf dict_get String.eqb
    Ascii.eqb Bool.eqb];
  repeat (match goal with
          | |- context [match ?x with _ => _ end] =>
              destruct x eqn:?; try done
          end).

(** The prefix is the one passed in when it is a non-empty string;
    otherwise it is [$HOME/.config/leap/soledad], and a missing [HOME]
    makes [_init_config] raise [KeyError]. *)
Theorem init_config_prefix (a : InitArgs) (w : World) :
  (forall s, _init_config a w = Ok s ->
     prefix s =
       match arg_prefix a, environ w !! "HOME" with
       | Some p, Some home =>
           if String.eqb p "" then home +:+ "/.config/leap/soledad" else p
       | Some p, None => p
       | None, Some home => home +:+ "/.config/leap/soledad"
       | None, None => ""
       end) /\
  (str_or (arg_prefix a) "" = "" -> environ w !! "HOME" = None ->
   _init_config a w = Raise (KeyError "HOME")).
Proof.
  split.
  - intros s. unfold _init_config, rbind.
    cbn [param_conf dict_get String.eqb Ascii.eqb Bool.eqb].
    destruct (arg_prefix a) as [p|]; [destruct (String.eqb p "")|];
      cbn [negb]; destruct (environ w !! "HOME"); try done;
      repeat (match goal with
              | |- context [match ?x with _ => _ end] =>
                  destruct x eqn:?; try done
              end); by intros [= <-].
  - unfold str_or. intros Hp Hhome. unfold _init_config, rbind.
    cbn [param_conf dict_get String.eqb Ascii.eqb Bool.eqb].
    rewrite Hhome. destruct (arg_prefix a) as [p|]; [|done].
    destruct (String.eqb p "") eqn:He; [done|]. subst p. done.
Qed.

(** When [_init_config] returns, the configuration file has no
    [soledad-client] section: with such a section the loop over the
    undefined name [default_conf] raises [NameError], so no setting is
    ever taken from a file. *)
Theorem init_config_reads_no_file_setting (a : InitArgs) (w : World)
    (s : t) :
  _init_config a w = Ok s ->
  exists sections,
    config_sections (files w !! config_file s) = Ok sections /\
    existsb (String.eqb "soledad-client") sections = false.
Proof.
  split_config. intros [= <-]. cbn [config_file]. eauto.
Qed.

(** A path passed to the constructor is taken as it is when its first
    line has no [%s]; a path left out is the default pattern filled in
    with the prefix. *)
Theorem init_config_secret_path (a : InitArgs) (w : World) (s : t) :
  _init_config a w = Ok s ->
  (forall p, arg_secret_path a = Some p -> p <> "" ->
             matches_percent_s p = false -> secret_path s = p) /\
  (arg_secret_path a = None ->
   percent_format "%s/secret.gpg" (prefix s) = Ok (secret_path s)).
Proof.
  intros Hconf. split.
  - intros p Hp Hne Hm. revert Hconf. unfold _init_config, rbind.
    unfold conf_value at 2.
    cbn [param_conf dict_get DEFAULT_CONF String.eqb Ascii.eqb Bool.eqb
         rbind].
    rewrite Hp. unfold str_or. apply String.eqb_neq in Hne.
    rewrite Hne, Hm.
    repeat (match goal with
            | |- context [match ?x with _ => _ end] =>
                destruct x eqn:?; try done
            end); by intros [= <-].
  - intros Hp. revert Hconf. unfold _init_config, rbind.
    unfold conf_value at 2.
    cbn [param_conf dict_get DEFAULT_CONF String.eqb Ascii.eqb Bool.eqb
         rbind].
    rewrite Hp. unfold str_or.
    change (matches_percent_s "%s/secret.gpg") with true. cbv iota.
    repeat (match goal with
            | |- context [match ?x with _ => _ end] =>
                destruct x eqn:?; try done
            end); intros [= <-]; cbn [secret_path prefix]; congruence.
Qed.

(** ** The OpenPGP keypair *)

(** [_gen_openpgp_keypair] refuses with [KeyAlreadyExists], changing
    nothing, when the keyring has a secret key for the address;
    otherwise it asks the provider for one RSA key of 4096 bits named
    after the address, and does nothing else: in particular it does not
    load the fingerprint. *)
Theorem gen_openpgp_keypair_cases (st : State) (home : string) :
  _gpg (self st) = Some home ->
  let kr := keyring (world st) in
  let email := _user_email (self st) in
  let params :=
    {| key_type := "RSA"; key_length := 4096; name_real := email;
       name_email := email; name_comment := "Generated by LEAP Soledad." |} in
  (is_Some (find_key_by_email kr email true) ->
   _gen_openpgp_keypair st = (Raise KeyAlreadyExists, st)) /\
  (find_key_by_email kr email true = None ->
   exists st',
     _gen_openpgp_keypair st = (Ok tt, st') /\
     self st' = self st /\
     keyring (world st') = gen_key kr params /\
     files (world st') = files (world st) /\
     calls (world st') = (calls (world st) ++ [GenKey params])%list).
Proof.
  destruct st as [s w]. intros Hg kr email params.
  cbn [self world] in *. split.
  - intros [info Hk]. run_method. rewrite Hg; run_method.
    fold kr email. by rewrite Hk.
  - intros Hk. run_method. rewrite Hg; run_method.
    fold kr email. rewrite Hk. rewrite Hg; run_method.
    eexists. split; [reflexivity|]. by repeat split.
Qed.

(** [_load_openpgp_keypair] raises [KeyDoesNotExist], changing nothing,
    when the keyring has no secret key for the address; otherwise it
    binds [_fingerprint] to the fingerprint of the key found for the
    address, and touches nothing else. *)
Theorem load_openpgp_keypair_cases (st : State) (home : string) :
  _gpg (self st) = Some home ->
  let kr := keyring (world st) in
  let email := _user_email (self st) in
  (find_key_by_email kr email true = None ->
   _load_openpgp_keypair st = (Raise KeyDoesNotExist, st)) /\
  (forall info,
     is_Some (find_key_by_email kr email true) ->
     find_key_by_email kr email false = Some info ->
     _load_openpgp_keypair st =
       (Ok tt, {| self := with_fingerprint (self st) (fingerprint info);
                  world := world st |})).
Proof.
  destruct st as [s w]. intros Hg kr email.
  cbn [self world] in *. split.
  - intros Hk. run_method. rewrite Hg; run_method.
    fold kr email. by rewrite Hk.
  - intros info [i1 Hk1] Hk2. run_method. rewrite Hg; run_method.
    fold kr email. rewrite Hk1. rewrite Hg; run_method.
    fold kr email. by rewrite Hk2.
Qed.

(** [_gen_keys] on an instance that has no keypair, no secret file and
    no cached fingerprint generates the keypair and then fails in
    [_gen_secret]: the fresh secret is bound in memory, but encrypting it
    needs [_fingerprint], which [_gen_keys] never loads.  No secret file
    is written. *)
Theorem gen_keys_never_loads_the_fingerprint (st : State) (home : string) :
  _gpg (self st) = Some home ->
  _fingerprint (self st) = None ->
  find_key_by_email (keyring (world st)) (_user_email (self st)) true
    = None ->
  files (world st) !! secret_path (self st) = None ->
  exists st',
    _gen_keys st = (Raise (AttributeError "_fingerprint"), st') /\
    keyring (world st') =
      gen_key (keyring (world st))
        {| key_type := "RSA"; key_length := 4096;
           name_real := _user_email (self st);
           name_email := _user_email (self st);
           name_comment := "Generated by LEAP Soledad." |} /\
    _secret (self st') =
      Some (random_string (ascii_letters +:+ digits) (rng (world st))
              SECRET_LENGTH) /\
    files (world st') = files (world st).
Proof.
  destruct st as [s w]. cbn [self world]. intros Hg Hf Hk Hc.
  unfold _gen_keys. run_method.
  rewrite Hg; run_method. rewrite Hk. rewrite Hg; run_method.
  rewrite Hc. rewrite Hg; run_method. rewrite Hf.
  eexists. split; [reflexivity|]. by repeat split.
Qed.

(** [_init_keys] on an instance with the wrapper bound, no keypair and
    no secret file, whose secret path can be opened for writing, when the
    provider then finds the key it generated and classifies its own
    ciphertext as encrypted to that key: the keypair
    is generated and its fingerprint loaded, a fresh secret is encrypted
    to that fingerprint and written to the secret path, and the secret
    bound in the end is the decryption of that file.  Exactly one key
    generation, one secret draw and one file write take place. *)
Theorem init_keys_generates_and_loads (st : State) (home : string)
    (i1 i2 : KeyInfo) :
  _gpg (self st) = Some home ->
  find_key_by_email (keyring (world st)) (_user_email (self st)) true
    = None ->
  files (world st) !! secret_path (self st) = None ->
  can_open_for_writing (dirs (world st)) (secret_path (self st)) = true ->
  let email := _user_email (self st) in
  let params :=
    {| key_type := "RSA"; key_length := 4096; name_real := email;
       name_email := email; name_comment := "Generated by LEAP Soledad." |} in
  let kr := gen_key (keyring (world st)) params in
  let fp := fingerprint i2 in
  let secret :=
    random_string (ascii_letters +:+ digits) (rng (world st))
      SECRET_LENGTH in
  let c := GPG.encrypt kr secret fp (Some fp) None false in
  find_key_by_email kr email true = Some i1 ->
  find_key_by_email kr email false = Some i2 ->
  GPG.is_encrypted_asym kr c = true ->
  fingerprint (encrypted_to kr c) = fp ->
  exists st',
    _init_keys st = (Ok tt, st') /\
    _fingerprint (self st') = Some fp /\
    _secret (self st') = Some (GPG.decrypt kr c None) /\
    keyring (world st') = kr /\
    files (world st') = <[secret_path (self st) := c]> (files (world st)) /\
    calls (world st') =
      (calls (world st)
       ++ [GenKey params; RandomChoice; WriteFile (secret_path (self st))])%list.
Proof.
  destruct st as [s w]. intros Hg Hk Hc Hw email params kr fp secret c.
  cbn [self world] in *. intros Hk1 Hk2 Ha He.
  pose proof (String.eqb_refl fp) as Hrefl.
  assert (Hnew : <[secret_path s := c]> (files w) !! secret_path s = Some c)
    by apply lookup_insert_eq.
  run_method.
  repeat (first [ rewrite Hg | rewrite Hk | rewrite Hc ]; run_method).
  fold email params kr. 
  repeat (first [ rewrite Hg | rewrite Hk1 | rewrite Hk2 | rewrite Hc ];
          run_method; fold email params kr).
  fold fp secret c.
  repeat (first [ rewrite Hnew | rewrite Hg | rewrite Ha | rewrite He
                | rewrite Hrefl | rewrite Hw ];
          run_method; fold email params kr; fold fp secret c).
  eexists. split; [reflexivity|]. cbn [self world]. reduce_fields.
  repeat split. by rewrite <- !app_assoc.
Qed.

(** ** The database handle *)

(** [_init_db] needs the secret: without it [AttributeError] is raised
    and nothing is bound; with it the database is opened at
    [local_db_path] with the secret as its key, and [close] then
    succeeds.  Before [_init_db], [close] raises [AttributeError]. *)
Theorem database_needs_the_secret (st : State) :
  (_secret (self st) = None ->
   _init_db st = (Raise (AttributeError "_secret"), st)) /\
  (forall secret, _secret (self st) = Some secret ->
     let st' := {| self := with_db (self st)
                             {| db_path := local_db_path (self st);
                                db_secret := secret |};
                   world := world st |} in
     _init_db st = (Ok tt, st') /\ close st' = (Ok tt, st')) /\
  (_db (self st) = None -> close st = (Raise (AttributeError "_db"), st)).
Proof.
  destruct st as [s w]. cbn [self world]. repeat split.
  - intros Hs. run_method. by rewrite Hs.
  - run_method. by rewrite H.
  - intros Hd. unfold close. run_method. by rewrite Hd.
Qed.

(** ** Retrieval from the server *)

(** [_retrieve_keys] stores nothing: the instance, the files and the
    keyring are what they were, whether the request fails or succeeds.
    Without a client it raises [AttributeError] and sends nothing; with
    one it sends a single [GET] for [user-keys] and the HMAC of the
    address, and raises what the request raises. *)
Theorem retrieve_keys_stores_nothing (st : State) :
  let st' := snd (_retrieve_keys st) in
  let request :=
    RemoteRequest "GET"
      ["user-keys"; hmac_hexdigest (_user_email (self st)) "user-keys"] in
  self st' = self st /\
  files (world st') = files (world st) /\
  keyring (world st') = keyring (world st) /\
  match _client (self st) with
  | None =>
      _retrieve_keys st = (Raise (AttributeError "_client"), st)
  | Some c =>
      calls (world st') = (calls (world st) ++ [request])%list /\
      fst (_retrieve_keys st) =
        match http_request_json (client_url c) "GET"
                ["user-keys";
                 hmac_hexdigest (_user_email (self st)) "user-keys"] with
        | Some e => Raise e
        | None => Ok tt
        end
  end.
Proof.
  destruct st as [s w]. cbn [self world].
  unfold _retrieve_keys, Client_request_json. run_method.
  destruct (_client s) as [c|]; [|done]. run_method.
  by destruct (http_request_json _ _ _).
Qed.

(** ** What the symmetric methods need *)

(** Both symmetric methods read the secret first and raise
    [AttributeError] without it.  With the secret and the wrapper but no
    fingerprint, [decrypt_symmetric] works, passing the provider the HMAC
    of the secret and the document id, while [encrypt_symmetric] raises
    [AttributeError]: only encryption names a recipient.  Neither
    changes the state. *)
Theorem symmetric_methods_requirements (st : State) (doc_id data : string)
    (sign : option string) :
  (_secret (self st) = None ->
   encrypt_symmetric doc_id data sign st
     = (Raise (AttributeError "_secret"), st) /\
   decrypt_symmetric doc_id data st
     = (Raise (AttributeError "_secret"), st)) /\
  (forall secret home,
     _secret (self st) = Some secret -> _gpg (self st) = Some home ->
     _fingerprint (self st) = None ->
     encrypt_symmetric doc_id data sign st
       = (Raise (AttributeError "_fingerprint"), st) /\
     decrypt_symmetric doc_id data st
       = (Ok (GPG.decrypt (keyring (world st)) data
                (Some (hmac_hexdigest secret doc_id))), st)).
Proof.
  destruct st as [s w]. cbn [self world]. split.
  - intros Hs. run_method. by rewrite Hs.
  - intros secret home Hs Hg Hf. run_method.
    rewrite Hs; run_method. rewrite Hg; run_method. by rewrite Hf.
Qed.

End SoledadFacts.

(** * Properties of the serialized store proxy *)

Section ProxyFacts.

Import SQLCipherWrapper Spec.
Context {ST : Store}.
Local Open Scope list_scope.

(** ** Reading a trace that grows at its end *)

Lemma puts_snoc (tr : list event) (e : event) :
  puts (tr ++ [e]) =
  (puts tr ++ match e with EvPut r => [r] | _ => [] end)%list.
Proof. unfold puts. rewrite omap_app. by destruct e. Qed.

Lemma gets_snoc (tr : list event) (e : event) :
  gets (tr ++ [e]) =
  (gets tr ++ match e with EvGet r => [r] | _ => [] end)%list.
Proof. unfold gets. rewrite omap_app. by destruct e. Qed.

Lemma begins_snoc (tr : list event) (e : event) :
  begins (tr ++ [e]) =
  (begins tr ++ match e with EvBegin r => [r] | _ => [] end)%list.
Proof. unfold begins. rewrite omap_app. by destruct e. Qed.

Lemma replied_snoc (tr : list event) (e : event) :
  replied (tr ++ [e]) =
  (replied tr ++ match e with EvReply q _ => [q] | _ => [] end)%list.
Proof. unfold replied. rewrite omap_app. by destruct e. Qed.

Lemma in_progress_snoc (tr : list event) (e : event) :
  in_progress (tr ++ [e]) = bracket (in_progress tr) e.
Proof. unfold in_progress. by rewrite fold_left_app. Qed.

Ltac snoc :=
  rewrite ?puts_snoc, ?gets_snoc, ?begins_snoc, ?replied_snoc,
    ?in_progress_snoc, ?app_nil_r.

(** ** The invariant of all interleavings *)

Lemma serialized_init (store : db) : serialized (init store).
Proof. repeat split; simpl; constructor. Qed.

Lemma serialized_put (s : t) (m : string) (a : list value)
    (kw : list (string * value)) :
  serialized s -> serialized (queue_put m a kw s).
Proof.
  intros (Hq & Hp & Hb & Hr). unfold serialized, queue_put; simpl. snoc.
  repeat split; try done.
  - by rewrite Hq, app_assoc.
  - rewrite Hp. by destruct (current (worker s)).
Qed.

Lemma serialized_receive (s : t) (q : nat) :
  serialized s -> serialized (from_option snd s (channel_get q s)).
Proof.
  intros H. unfold channel_get.
  destruct (channels s !! q) as [[|v rest]|]; done.
Qed.

Lemma serialized_direct (s : t) (name : string) :
  serialized s -> serialized (snd (direct_call name s)).
Proof.
  intros (Hq & Hp & Hb & Hr). unfold direct_call.
  destruct (db_getattr (_db s) name) as [[f|v]|]; [|done..].
  destruct (f [] [] (_db s)) as [out store].
  unfold serialized; simpl. snoc. repeat split; try done.
  rewrite Hp. by destruct (current (worker s)).
Qed.

Lemma serialized_dispatch (s : t) (r : request) (rest : list request) :
  serialized s -> worker s = AtGet -> _queue s = r :: rest ->
  serialized (dispatch s r rest).
Proof.
  intros (Hq & Hp & Hb & Hr) Hw Hqueue.
  rewrite Hw in Hp, Hr. rewrite Hqueue in Hq. simpl in Hp, Hr.
  rewrite app_nil_r in Hr.
  assert (Hgets : puts (trace s) = ((gets (trace s) ++ [r]) ++ rest)%list).
  { by rewrite Hq, <- app_assoc. }
  assert (Hb' : sublist (begins (trace s)) (gets (trace s) ++ [r])).
  { by apply sublist_inserts_r. }
  assert (Hr' : sublist (replied (trace s))
                  (reply <$> (gets (trace s) ++ [r]))).
  { rewrite fmap_app. by apply sublist_inserts_r. }
  assert (Hr'' : sublist (replied (trace s) ++ [reply r])
                   (reply <$> (gets (trace s) ++ [r]))).
  { rewrite fmap_app. by apply sublist_app. }
  unfold dispatch.
  destruct (String.eqb (mth r) end_thread_literal).
  { unfold serialized; simpl. snoc. rewrite Hp. done. }
  destruct (db_getattr (_db s) (mth r)) as [[f|v]|].
  - unfold serialized; simpl. snoc. rewrite Hp. simpl.
    repeat split; try done. by apply sublist_app.
  - destruct (truthy v); unfold serialized; simpl; snoc; rewrite Hp; done.
  - unfold serialized; simpl. snoc. rewrite Hp. done.
Qed.

Lemma serialized_worker_step (s s' : t) :
  serialized s -> worker_step s = Some s' -> serialized s'.
Proof.
  intros Hs. unfold worker_step.
  destruct (worker s) as [| |r f|r res| |] eqn:Hw; try done.
  - destruct (_lock s); [done|]. intros [= <-].
    destruct Hs as (Hq & Hp & Hb & Hr). rewrite Hw in Hp, Hr.
    by unfold serialized; simpl.
  - destruct (_queue s) as [|r rest] eqn:Hqueue; [done|]. intros [= <-].
    by apply serialized_dispatch.
  - destruct Hs as (Hq & Hp & Hb & Hr). rewrite Hw in Hp, Hr.
    simpl in Hp, Hr.
    destruct (f (args r) (kwargs r) (_db s)) as [[v|[|a0 a]] store];
      intros [= <-]; unfold serialized; simpl; snoc; rewrite Hp; simpl;
      rewrite Nat.eqb_refl; repeat split; try done.
    etrans; [|exact Hr]. by apply sublist_inserts_r.
  - intros [= <-]. destruct Hs as (Hq & Hp & Hb & Hr). rewrite Hw in Hp, Hr.
    unfold serialized; simpl. snoc. rewrite Hp. done.
Qed.

Lemma serialized_perform (s : t) (a : action) :
  serialized s -> serialized (perform s a).
Proof.
  intros Hs. destruct a as [|m a kw|q|name]; simpl.
  - destruct (worker_step s) as [s'|] eqn:Hstep; [|done].
    by eapply serialized_worker_step.
  - by apply serialized_put.
  - by apply serialized_receive.
  - by apply serialized_direct.
Qed.

Lemma serialized_run_schedule (sched : list action) (s : t) :
  serialized s -> serialized (run_schedule sched s).
Proof.
  revert s. induction sched as [|a sched IH]; intros s Hs; [done|].
  simpl. apply IH. by apply serialized_perform.
Qed.

(** Claim C2.  Whatever the callers do and however their steps and the
    worker's interleave, starting from a wrapper whose worker has opened
    the store: the store calls the worker makes are bracketed one after
    the other, none beginning before the previous one has ended; the
    requests leave the queue in the order in which they were put into it,
    those not yet taken being the rest of that order; and the store calls
    and the replies follow the order in which the requests were taken. *)
Theorem C2_one_at_a_time_in_fifo_order (store : db) (sched : list action) :
  let s := run_schedule sched (init store) in
  in_progress (trace s) = Some (current (worker s)) /\
  puts (trace s) = (gets (trace s) ++ _queue s)%list /\
  sublist (begins (trace s)) (gets (trace s)) /\
  sublist (replied (trace s)) (reply <$> gets (trace s)).
Proof.
  intros s.
  destruct (serialized_run_schedule sched (init store)
              (serialized_init store)) as (Hq & Hp & Hb & Hr).
  fold s in Hq, Hp, Hb, Hr. repeat split; try done.
  etrans; [|exact Hr]. by apply sublist_inserts_r.
Qed.

(** ** A worker stuck on its own lock *)

Lemma run_worker_S (n : nat) (s : t) :
  run_worker (S n) s =
  match worker_step s with
  | Some s' => run_worker n s'
  | None => s
  end.
Proof. reflexivity. Qed.

Lemma run_worker_stuck (n : nat) (s : t) :
  worker_step s = None -> run_worker n s = s.
Proof. intros H. destruct n; simpl; [done|]. by rewrite H. Qed.

Lemma run_worker_add (n m : nat) (s : t) :
  run_worker (n + m) s = run_worker m (run_worker n s).
Proof.
  revert s. induction n as [|n IH]; intros s; simpl; [done|].
  destruct (worker_step s) as [s'|] eqn:Hstep; [apply IH|].
  by rewrite run_worker_stuck.
Qed.

Lemma deadlocked_perform (s : t) (a : action) :
  deadlocked s ->
  deadlocked (perform s a) /\
  gets (trace (perform s a)) = gets (trace s) /\
  begins (trace (perform s a)) = begins (trace s) /\
  replied (trace (perform s a)) = replied (trace s).
Proof.
  intros (Hw & Hl & Hs & Hstep).
  destruct a as [|m a kw|q|name]; simpl.
  - rewrite Hstep. simpl. by repeat split.
  - unfold deadlocked, worker_step, queue_put; simpl. snoc.
    rewrite Hw, Hl. by repeat split.
  - unfold channel_get.
    destruct (channels s !! q) as [[|v rest]|]; simpl;
      unfold deadlocked, worker_step; simpl; rewrite ?Hw, ?Hl;
      by repeat split.
  - unfold direct_call.
    destruct (db_getattr (_db s) name) as [[f|v]|];
      [destruct (f [] [] (_db s)) as [out store]|..]; simpl; snoc;
      unfold deadlocked, worker_step; simpl; rewrite ?Hw, ?Hl;
      by repeat split.
Qed.

Lemma deadlocked_forever (s : t) : deadlocked s -> never_serves_again s.
Proof.
  intros Hd sched. revert s Hd.
  induction sched as [|a sched IH]; intros s Hd;
    [intros s'; split; [exact Hd|done]|].
  simpl. destruct (deadlocked_perform s a Hd) as (Hd' & Hg & Hb & Hr).
  destruct (IH _ Hd') as (? & Hg' & Hb' & Hr').
  unfold run_schedule in *. by rewrite Hg', Hb', Hr', Hg, Hb, Hr.
Qed.

(** The two steps of the worker on a request it does not find. *)
Lemma unknown_method_steps (s : t) (r : request) :
  next_request s r ->
  mth r <> end_thread_literal ->
  match db_getattr (_db s) (mth r) with
  | None => True
  | Some (Plain v) => truthy v = false
  | Some (Method _) => False
  end ->
  deadlocked (run_worker 2 s) /\
  worker_step (run_worker 2 s) = None /\
  channels (run_worker 2 s) = channels s /\
  _db (run_worker 2 s) = _db s /\
  _queue (run_worker 2 s) = tail (_queue s) /\
  next_channel (run_worker 2 s) = next_channel s /\
  trace (run_worker 2 s) = trace s ++ [EvGet r; EvLogError (mth r)].
Proof.
  intros (Hw & Hl & Hs & Hq) Hne Hattr.
  destruct (_queue s) as [|r' rest] eqn:Hqueue; [done|].
  injection Hq as ->.
  apply String.eqb_neq in Hne.
  remember (run_worker 2 s) as s1 eqn:Hrun.
  rewrite run_worker_S in Hrun. unfold worker_step at 1 in Hrun.
  rewrite Hw, Hl, run_worker_S in Hrun.
  unfold worker_step at 1 in Hrun. cbn [worker _queue] in Hrun.
  rewrite Hqueue in Hrun. unfold dispatch in Hrun. rewrite Hne in Hrun.
  cbn [_db] in Hrun.
  destruct (db_getattr (_db s) (mth r)) as [[f|v]|]; [done|..];
    rewrite ?Hattr in Hrun; cbn [run_worker] in Hrun; subst s1;
    unfold deadlocked, worker_step; simpl;
    rewrite <- app_assoc; by repeat split.
Qed.

(** Claim C10, as amended.  When the worker, at the top of its loop with
    the lock free, takes a request whose name is not the end-of-thread
    sentinel and is not an attribute of the store, it logs an error and
    goes round the loop without releasing the lock: no reply is posted,
    and the worker waits at [acquire] for the lock it holds.  Nothing any
    other thread does changes that: the worker takes no further request,
    makes no store call, posts no reply, and never leaves its loop. *)
Theorem C10_unknown_method_deadlocks_worker (s : t) (r : request) :
  next_request s r ->
  mth r <> end_thread_literal ->
  db_getattr (_db s) (mth r) = None ->
  let s1 := run_worker 2 s in
  (forall n, 2 <= n -> run_worker n s = s1) /\
  deadlocked s1 /\
  channels s1 = channels s /\
  _queue s1 = tail (_queue s) /\
  never_serves_again s1.
Proof.
  intros Hnext Hne Hattr s1.
  destruct (unknown_method_steps s r Hnext Hne) as (Hd & Hstep & Hc & _ & Hq & _ & _).
  { by rewrite Hattr. }
  fold s1 in Hd, Hstep, Hc, Hq.
  split; [|split; [exact Hd|split; [exact Hc|split; [exact Hq|]]]].
  - intros n Hn. replace n with (2 + (n - 2)) by lia.
    rewrite run_worker_add. by apply run_worker_stuck.
  - by apply deadlocked_forever.
Qed.

(** ** A store call that raises *)

(** Claim C9, as amended.  When the worker, at the top of its loop with
    the lock free, takes a request whose name is not the end-of-thread
    sentinel and names a method of the store, and the call raises an
    exception that carries at least one argument, the worker logs the
    error, puts [None] on the reply channel of the request and releases
    the lock: the caller that waits on a fresh channel receives [None],
    and the worker is back at the top of its loop. *)
Theorem C9_exception_is_answered_with_none (s : t) (r : request)
    (f : list value -> list (string * value) -> db -> outcome * db)
    (a0 : value) (a : list value) (store : db) :
  next_request s r ->
  mth r <> end_thread_literal ->
  db_getattr (_db s) (mth r) = Some (Method f) ->
  f (args r) (kwargs r) (_db s) = (Raises (a0 :: a), store) ->
  let s' := run_worker 4 s in
  worker s' = AtAcquire /\
  _lock s' = false /\
  _db s' = store /\
  trace s' =
    trace s ++ [EvGet r; EvBegin r; EvEnd r; EvLogError (mth r);
                EvReply (reply r) VNone] /\
  channels s' !! reply r =
    Some (default [] (channels s !! reply r) ++ [VNone]) /\
  (channels s !! reply r = Some [] ->
   exists s'', channel_get (reply r) s' = Some (VNone, s'')).
Proof.
  intros (Hw & Hl & Hs & Hq) Hne Hattr Hcall s'.
  destruct (_queue s) as [|r' rest] eqn:Hqueue; [done|].
  injection Hq as ->.
  apply String.eqb_neq in Hne.
  assert (Hrun : s' =
    {| _db := store; _queue := rest; _stopped := _stopped s;
       _lock := false;
       channels :=
         <[reply r := default [] (channels s !! reply r) ++ [VNone]]>
           (channels s);
       next_channel := next_channel s; worker := AtAcquire;
       trace := trace s ++ [EvGet r; EvBegin r; EvEnd r;
                            EvLogError (mth r);
                            EvReply (reply r) VNone] |}).
  { unfold s'. rewrite run_worker_S. unfold worker_step at 1.
    rewrite Hw, Hl, run_worker_S. unfold worker_step at 1.
    cbn [worker _queue]. rewrite Hqueue. unfold dispatch.
    rewrite Hne. cbn [_db]. rewrite Hattr, run_worker_S.
    unfold worker_step at 1. cbn [worker _db]. rewrite Hcall.
    rewrite run_worker_S. unfold worker_step at 1.
    cbn [worker run_worker channels trace _db _queue _stopped
         next_channel].
    by rewrite <- !app_assoc. }
  rewrite Hrun. cbn [worker _lock _db trace channels].
  repeat split; try done.
  - by rewrite lookup_insert_eq.
  - intros Hfresh. unfold channel_get. cbn [channels].
    rewrite lookup_insert_eq, Hfresh. by eexists.
Qed.

(** ** Closing the wrapper *)

(** Claim C8, where the code departs from it.  [close] calls the store's
    [close] on the calling thread and then asks for [self.__end_thread],
    which name mangling turns into a request for
    [_SQLCipherWrapper__end_thread]; the worker compares with
    ["__end_thread"], finds no such attribute on the store, and goes
    round its loop with the lock held.  So after [close] on a fresh
    wrapper the worker is stuck for good with [_stopped] clear, the
    caller of [close] never gets its reply, and a call made afterwards
    finds the flag clear, enqueues its request and is never served. *)
Theorem C8_close_leaves_flag_clear_and_worker_stuck (store store' : db)
    (f : list value -> list (string * value) -> db -> outcome * db)
    (v : value) :
  db_getattr store "close" = Some (Method f) ->
  f [] [] store = (Returns v, store') ->
  db_getattr store' end_thread_attribute = None ->
  end_thread_attribute <> end_thread_literal /\
  exists s1,
    close (init store) = (Ok (Some 0), s1) /\
    let s2 := run_worker 2 s1 in
    (forall n, 2 <= n -> run_worker n s1 = s2) /\
    worker s2 = AtAcquire /\ _lock s2 = true /\ _stopped s2 = false /\
    channels s2 !! 0 = Some [] /\
    never_serves_again s2 /\
    forall m a kw,
      __proxied_mth m a kw s2 = (Some 1, queue_put m a kw s2) /\
      _queue (queue_put m a kw s2) =
        [{| mth := m; reply := 1; args := a; kwargs := kw |}] /\
      never_serves_again (queue_put m a kw s2).
Proof.
  intros Hclose Hcall Hend. split; [done|].
  set (s1 := queue_put end_thread_attribute [] []
               {| _db := store'; _queue := []; _stopped := false;
                  _lock := false; channels := ∅; next_channel := 0;
                  worker := AtAcquire; trace := [EvDirect "close"] |}).
  exists s1. split.
  { unfold close, direct_call. cbn [init _db]. by rewrite Hclose, Hcall. }
  set (r := {| mth := end_thread_attribute; reply := 0; args := [];
               kwargs := [] |}).
  assert (Hnext : next_request s1 r) by done.
  assert (Hne : mth r <> end_thread_literal) by done.
  destruct (unknown_method_steps s1 r Hnext Hne)
    as (Hd & Hstep & Hc & Hdb & Hq & Hnc & Htr).
  { cbn [mth r s1 queue_put _db]. by rewrite Hend. }
  intros s2. fold s2 in Hd, Hstep, Hc, Hdb, Hq, Hnc, Htr.
  cbn [s1 queue_put next_channel] in Hnc.
  split.
  { intros n Hn. replace n with (2 + (n - 2)) by lia.
    rewrite run_worker_add. by apply run_worker_stuck. }
  destruct Hd as (Hw & Hl & Hs & _).
  do 3 (split; [done|]).
  split. { rewrite Hc. unfold s1, queue_put. cbn [channels next_channel].
           by rewrite lookup_insert_eq. }
  split. { by apply deadlocked_forever. }
  intros m a kw. split; [unfold __proxied_mth; by rewrite Hs, Hnc|].
  split. { unfold queue_put at 1. cbn [_queue]. by rewrite Hq, Hnc. }
  apply deadlocked_forever.
  by apply (deadlocked_perform s2 (ActPut m a kw)).
Qed.

(** * Further properties of the serialized store proxy *)

(** ** One request, from the top of the loop *)

(** The worker's first two steps on the request it takes next. *)
Lemma take_next_request (s : t) (r : request) :
  next_request s r ->
  run_worker 2 s =
    dispatch {| _db := _db s; _queue := _queue s; _stopped := _stopped s;
                _lock := true; channels := channels s;
                next_channel := next_channel s; worker := AtGet;
                trace := trace s |} r (tail (_queue s)).
Proof.
  intros (Hw & Hl & Hs & Hq).
  destruct (_queue s) as [|r' rest] eqn:Hqueue; [done|].
  injection Hq as ->.
  rewrite run_worker_S. unfold worker_step at 1. rewrite Hw, Hl.
  rewrite run_worker_S. unfold worker_step at 1.
  cbn [worker _queue]. by rewrite Hqueue.
Qed.

(** A call that returns.  When the request the worker takes next names a
    method of the store and the call returns [v], four steps of the
    worker run the method on the store, put [v] on the reply channel and
    release the lock; the caller that waits on its fresh channel receives
    [v]. *)
Theorem call_returns_its_result (s : t) (r : request)
    (f : list value -> list (string * value) -> db -> outcome * db)
    (v : value) (store : db) :
  next_request s r ->
  mth r <> end_thread_literal ->
  db_getattr (_db s) (mth r) = Some (Method f) ->
  f (args r) (kwargs r) (_db s) = (Returns v, store) ->
  channels s !! reply r = Some [] ->
  let s' := run_worker 4 s in
  worker s' = AtAcquire /\ _lock s' = false /\ _db s' = store /\
  _queue s' = tail (_queue s) /\
  trace s' =
    trace s ++ [EvGet r; EvBegin r; EvEnd r; EvReply (reply r) v] /\
  exists s'', channel_get (reply r) s' = Some (v, s'') /\ _db s'' = store.
Proof.
  intros Hnext Hne Hattr Hcall Hfresh s'.
  assert (Hrun : s' =
    {| _db := store; _queue := tail (_queue s); _stopped := _stopped s;
       _lock := false;
       channels := <[reply r := [v]]> (channels s);
       next_channel := next_channel s; worker := AtAcquire;
       trace := trace s ++ [EvGet r; EvBegin r; EvEnd r;
                            EvReply (reply r) v] |}).
  { unfold s'. change 4 with (2 + 2). rewrite run_worker_add.
    rewrite (take_next_request s r Hnext). unfold dispatch.
    apply String.eqb_neq in Hne. rewrite Hne. cbn [_db]. rewrite Hattr.
    rewrite run_worker_S. unfold worker_step at 1. cbn [worker _db].
    rewrite Hcall. rewrite run_worker_S. unfold worker_step at 1.
    cbn [worker run_worker channels trace _db _queue _stopped
         next_channel]. rewrite Hfresh. cbn [default app].
    by rewrite <- !app_assoc. }
  rewrite Hrun. cbn [worker _lock _db trace _queue].
  repeat split; try done.
  unfold channel_get. cbn [channels]. rewrite lookup_insert_eq.
  eexists. by split.
Qed.

(** An attribute that is not callable.  When the name is a plain
    attribute whose value is true in the sense of [if not attr], three
    steps of the worker put that value on the reply channel and release
    the lock; the store is not called and does not change. *)
Theorem attribute_read_returns_its_value (s : t) (r : request)
    (v : value) :
  next_request s r ->
  mth r <> end_thread_literal ->
  db_getattr (_db s) (mth r) = Some (Plain v) ->
  truthy v = true ->
  let s' := run_worker 3 s in
  worker s' = AtAcquire /\ _lock s' = false /\ _db s' = _db s /\
  trace s' = trace s ++ [EvGet r; EvReply (reply r) v] /\
  channels s' !! reply r
    = Some (default [] (channels s !! reply r) ++ [v]).
Proof.
  intros Hnext Hne Hattr Htrue s'.
  assert (Hrun : s' =
    {| _db := _db s; _queue := tail (_queue s); _stopped := _stopped s;
       _lock := false;
       channels :=
         <[reply r := default [] (channels s !! reply r) ++ [v]]>
           (channels s);
       next_channel := next_channel s; worker := AtAcquire;
       trace := trace s ++ [EvGet r; EvReply (reply r) v] |}).
  { unfold s'. change 3 with (2 + 1). rewrite run_worker_add.
    rewrite (take_next_request s r Hnext). unfold dispatch.
    apply String.eqb_neq in Hne. rewrite Hne. cbn [_db].
    rewrite Hattr, Htrue.
    rewrite run_worker_S. unfold worker_step at 1.
    cbn [worker run_worker channels trace _db _lock _queue _stopped
         next_channel].
    by rewrite <- app_assoc. }
  rewrite Hrun. cbn [worker _lock _db trace channels].
  repeat split. by rewrite lookup_insert_eq.
Qed.

(** An attribute whose value is false in the sense of [if not attr]
    (zero, the empty string, [False], [None]) is taken for a missing
    method: the worker logs an error, posts no reply and is stuck on its
    own lock for good. *)
Theorem falsy_attribute_is_taken_for_missing (s : t) (r : request)
    (v : value) :
  next_request s r ->
  mth r <> end_thread_literal ->
  db_getattr (_db s) (mth r) = Some (Plain v) ->
  truthy v = false ->
  let s' := run_worker 2 s in
  deadlocked s' /\ channels s' = channels s /\
  trace s' = trace s ++ [EvGet r; EvLogError (mth r)] /\
  never_serves_again s'.
Proof.
  intros Hnext Hne Hattr Hfalse s'.
  destruct (unknown_method_steps s r Hnext Hne)
    as (Hd & _ & Hc & _ & _ & _ & Htr).
  { by rewrite Hattr. }
  fold s' in Hd, Hc, Htr.
  split; [exact Hd|]. split; [exact Hc|]. split; [exact Htr|].
  by apply deadlocked_forever.
Qed.

(** ** A worker that has left its loop *)

Lemma halted_perform (s : t) (a : action) :
  worker s = Finished \/ worker s = Crashed ->
  worker (perform s a) = worker s /\ _lock (perform s a) = _lock s /\
  _stopped (perform s a) = _stopped s /\
  gets (trace (perform s a)) = gets (trace s) /\
  begins (trace (perform s a)) = begins (trace s) /\
  replied (trace (perform s a)) = replied (trace s).
Proof.
  intros Hw. destruct a as [|m a kw|q|name]; simpl.
  - unfold worker_step. destruct Hw as [Hw|Hw]; rewrite Hw; by repeat split.
  - unfold queue_put; simpl. snoc. by repeat split.
  - unfold channel_get.
    by destruct (channels s !! q) as [[|v rest]|].
  - unfold direct_call.
    destruct (db_getattr (_db s) name) as [[f|v]|];
      [destruct (f [] [] (_db s)) as [out store]|..]; simpl; snoc;
      by repeat split.
Qed.

Lemma halted_forever (s : t) :
  worker s = Finished \/ worker s = Crashed -> stopped_for_good s.
Proof.
  intros Hw sched. revert s Hw.
  induction sched as [|a sched IH]; intros s Hw; [by repeat split|].
  simpl. destruct (halted_perform s a Hw) as (Hw' & Hl & Hs & Hg & Hb & Hr).
  destruct (IH (perform s a)) as (? & ? & ? & ? & ? & ?).
  { by rewrite Hw'. }
  unfold run_schedule in *. repeat split; congruence.
Qed.

(** An exception without arguments.  When the call raises an exception
    whose [args] is empty, reading [e.args[0]] in the handler raises in
    its turn and the worker thread dies inside the call: the lock stays
    held, [_stopped] stays clear, no reply is posted, and nothing any
    thread does afterwards is served. *)
Theorem bare_exception_kills_the_worker (s : t) (r : request)
    (f : list value -> list (string * value) -> db -> outcome * db)
    (store : db) :
  next_request s r ->
  mth r <> end_thread_literal ->
  db_getattr (_db s) (mth r) = Some (Method f) ->
  f (args r) (kwargs r) (_db s) = (Raises [], store) ->
  let s' := run_worker 3 s in
  worker s' = Crashed /\ _lock s' = true /\ _stopped s' = false /\
  channels s' = channels s /\ _db s' = store /\
  (forall n, 3 <= n -> run_worker n s = s') /\
  stopped_for_good s'.
Proof.
  intros Hnext Hne Hattr Hcall s'.
  assert (Hrun : s' =
    {| _db := store; _queue := tail (_queue s); _stopped := _stopped s;
       _lock := true; channels := channels s;
       next_channel := next_channel s; worker := Crashed;
       trace := trace s ++ [EvGet r; EvBegin r; EvEnd r] |}).
  { unfold s'. change 3 with (2 + 1). rewrite run_worker_add.
    rewrite (take_next_request s r Hnext). unfold dispatch.
    apply String.eqb_neq in Hne. rewrite Hne. cbn [_db]. rewrite Hattr.
    rewrite run_worker_S. unfold worker_step at 1. cbn [worker _db].
    rewrite Hcall.
    cbn [worker run_worker channels trace _db _queue _stopped
         next_channel _lock].
    by rewrite <- !app_assoc. }
  assert (Hw : worker s' = Crashed) by by rewrite Hrun.
  destruct Hnext as (_ & _ & Hs & _).
  split; [exact Hw|]. split; [by rewrite Hrun|]. split; [by rewrite Hrun|].
  split; [by rewrite Hrun|]. split; [by rewrite Hrun|]. split.
  - intros n Hn. replace n with (3 + (n - 3)) by lia.
    rewrite run_worker_add. fold s'. apply run_worker_stuck.
    unfold worker_step. by rewrite Hw.
  - apply halted_forever. by right.
Qed.

(** The end-of-thread sentinel.  A request named ["__end_thread"] makes
    the worker leave its loop and set [_stopped]; the lock is still held,
    and the sender gets no reply, so it waits for ever.  From then on
    nothing is served, and [__proxied_mth] returns [None] at once without
    putting anything on the queue. *)
Theorem end_thread_request_stops_the_worker (s : t) (r : request) :
  next_request s r ->
  mth r = end_thread_literal ->
  let s' := run_worker 2 s in
  worker s' = Finished /\ _stopped s' = true /\ _lock s' = true /\
  channels s' = channels s /\ _db s' = _db s /\
  replied (trace s') = replied (trace s) /\
  stopped_for_good s' /\
  forall m a kw, __proxied_mth m a kw s' = (None, s').
Proof.
  intros Hnext Hm s'.
  assert (Hrun : s' =
    {| _db := _db s; _queue := tail (_queue s); _stopped := true;
       _lock := true; channels := channels s;
       next_channel := next_channel s; worker := Finished;
       trace := trace s ++ [EvGet r] |}).
  { unfold s'. rewrite (take_next_request s r Hnext). unfold dispatch.
    by rewrite Hm. }
  assert (Hgood : stopped_for_good s').
  { apply halted_forever. left. by rewrite Hrun. }
  split; [by rewrite Hrun|]. split; [by rewrite Hrun|].
  split; [by rewrite Hrun|]. split; [by rewrite Hrun|].
  split; [by rewrite Hrun|]. split; [rewrite Hrun; simpl; by snoc|].
  split; [exact Hgood|].
  intros m a kw. unfold __proxied_mth. by rewrite Hrun.
Qed.

(** ** Lock, flag and channels in every interleaving *)

Lemma lock_discipline_init (store : db) : lock_discipline (init store).
Proof. repeat split; simpl; done. Qed.

Lemma lock_discipline_facts (s : t) :
  lock_discipline s ->
  (worker s <> Finished -> _stopped s = false) /\
  (worker s <> AtAcquire -> _lock s = true).
Proof.
  intros ([Hs1 Hs2] & Hl & _). split; intros Hw.
  - destruct (_stopped s); [by destruct (Hw (Hs1 eq_refl))|done].
  - destruct (_lock s); [done|by destruct (Hw (Hl eq_refl))].
Qed.

Lemma lock_discipline_worker_step (s s' : t) :
  lock_discipline s -> worker_step s = Some s' -> lock_discipline s'.
Proof.
  intros Hd. destruct (lock_discipline_facts s Hd) as [Hstop Hlock].
  destruct Hd as (Hs & Hl & Hp). unfold worker_step.
  destruct (worker s) as [| |r f|r res| |] eqn:Hw; try done.
  - destruct (_lock s); [done|]. intros [= <-].
    unfold lock_discipline; simpl. rewrite (Hstop ltac:(done)).
    by repeat split.
  - destruct (_queue s) as [|r rest]; [done|]. intros [= <-].
    unfold dispatch.
    destruct (String.eqb (mth r) end_thread_literal).
    { unfold lock_discipline; simpl. snoc. rewrite (Hlock ltac:(done)).
      by repeat split. }
    destruct (db_getattr (_db s) (mth r)) as [[f|v]|];
      [|destruct (truthy v)|];
      unfold lock_discipline; simpl; snoc;
      rewrite (Hstop ltac:(done)), (Hlock ltac:(done)); by repeat split.
  - destruct (f (args r) (kwargs r) (_db s)) as [[v|[|a0 a]] store];
      intros [= <-]; unfold lock_discipline; simpl; snoc;
      rewrite (Hstop ltac:(done)), (Hlock ltac:(done)); by repeat split.
  - intros [= <-]. unfold lock_discipline; simpl. snoc.
    rewrite (Hstop ltac:(done)). by repeat split.
Qed.

Lemma lock_discipline_perform (s : t) (a : action) :
  lock_discipline s -> lock_discipline (perform s a).
Proof.
  intros Hd. destruct a as [|m a kw|q|name]; simpl.
  - destruct (worker_step s) as [s'|] eqn:Hstep; [|done].
    by eapply lock_discipline_worker_step.
  - destruct Hd as (Hs & Hl & Hp).
    unfold lock_discipline, queue_put.
    cbn [_stopped worker _lock trace next_channel]. snoc.
    split; [exact Hs|]. split; [exact Hl|].
    by rewrite fmap_app, Hp, seq_S.
  - unfold channel_get.
    by destruct (channels s !! q) as [[|v rest]|].
  - unfold direct_call.
    destruct (db_getattr (_db s) name) as [[f|v]|]; [|done..].
    destruct (f [] [] (_db s)) as [out store].
    destruct Hd as (Hs & Hl & Hp).
    unfold lock_discipline.
    cbn [snd _stopped worker _lock trace next_channel]. snoc.
    split; [exact Hs|]. split; [exact Hl|]. exact Hp.
Qed.

Lemma lock_discipline_run_schedule (sched : list action) (s : t) :
  lock_discipline s -> lock_discipline (run_schedule sched s).
Proof.
  revert s. induction sched as [|a sched IH]; intros s Hs; [done|].
  simpl. apply IH. by apply lock_discipline_perform.
Qed.

(** In every interleaving from a fresh wrapper: [_stopped] is set exactly
    when the worker has left its loop through the sentinel; whenever the
    lock is free the worker stands at the top of its loop, so that it
    holds the lock all the time it takes a request, calls the store and
    replies. *)
Theorem lock_is_held_while_serving (store : db) (sched : list action) :
  let s := run_schedule sched (init store) in
  (_stopped s = true <-> worker s = Finished) /\
  (_lock s = false -> worker s = AtAcquire) /\
  (worker s <> AtAcquire -> _lock s = true).
Proof.
  intros s.
  pose proof (lock_discipline_run_schedule sched (init store)
                (lock_discipline_init store)) as Hd.
  fold s in Hd. destruct (lock_discipline_facts s Hd) as [_ Hlock].
  destruct Hd as (Hs & Hl & _). by repeat split; try apply Hs.
Qed.

(** In every interleaving from a fresh wrapper each request has a reply
    channel of its own, numbered in the order of the puts, and no channel
    is ever replied to twice. *)
Theorem at_most_one_reply_per_request (store : db) (sched : list action) :
  let s := run_schedule sched (init store) in
  (reply <$> puts (trace s)) = seq 0 (next_channel s) /\
  NoDup (reply <$> puts (trace s)) /\
  NoDup (replied (trace s)).
Proof.
  intros s.
  pose proof (lock_discipline_run_schedule sched (init store)
                (lock_discipline_init store)) as (_ & _ & Hp).
  destruct (serialized_run_schedule sched (init store)
              (serialized_init store)) as (Hq & _ & _ & Hr).
  fold s in Hp, Hq, Hr.
  assert (Hnd : NoDup (reply <$> puts (trace s))).
  { rewrite Hp. apply NoDup_seq. }
  split; [exact Hp|]. split; [exact Hnd|].
  apply (sublist_NoDup _ (reply <$> puts (trace s))); [exact Hnd|].
  transitivity (reply <$> gets (trace s)).
  - transitivity (replied (trace s) ++ owed (worker s)); [|exact Hr].
    by apply sublist_inserts_r.
  - rewrite Hq, fmap_app. by apply sublist_inserts_r.
Qed.

(** ** Callers on their own *)

(** Whatever calls go through the proxy, as long as the worker does not
    run the store is not touched: puts and reads of replies change
    neither the store nor the worker, begin no store call and post no
    reply; the puts only lengthen the queue by the requests put, in the
    order of the puts. *)
Theorem callers_never_touch_the_store (s : t) (sched : list action) :
  forallb is_proxied sched = true ->
  let s' := run_schedule sched s in
  _db s' = _db s /\ worker s' = worker s /\ _lock s' = _lock s /\
  _stopped s' = _stopped s /\
  begins (trace s') = begins (trace s) /\
  replied (trace s') = replied (trace s) /\
  exists new,
    _queue s' = _queue s ++ new /\
    puts (trace s') = puts (trace s) ++ new.
Proof.
  revert s. induction sched as [|a sched IH]; intros s Hall.
  { repeat split. exists []. by rewrite !app_nil_r. }
  simpl in Hall. apply andb_true_iff in Hall as [Ha Hall].
  specialize (IH (perform s a) Hall).
  destruct IH as (Hd & Hw & Hl & Hs & Hb & Hr & new & Hq & Hp).
  simpl. unfold run_schedule in *.
  rewrite Hd, Hw, Hl, Hs, Hb, Hr, Hq, Hp.
  destruct a as [|m a kw|q|name]; try done; simpl.
  - unfold queue_put; simpl. snoc. repeat split.
    eexists. by rewrite <- !app_assoc.
  - unfold channel_get.
    destruct (channels s !! q) as [[|v rest]|]; simpl; repeat split; eauto.
Qed.

(** ** A queue of requests the store can answer *)

Lemma returning_call_steps (s : t) (r : request)
    (f : list value -> list (string * value) -> db -> outcome * db)
    (v : value) (store : db) :
  next_request s r ->
  mth r <> end_thread_literal ->
  db_getattr (_db s) (mth r) = Some (Method f) ->
  f (args r) (kwargs r) (_db s) = (Returns v, store) ->
  run_worker 4 s =
    {| _db := store; _queue := tail (_queue s); _stopped := _stopped s;
       _lock := false;
       channels :=
         <[reply r := default [] (channels s !! reply r) ++ [v]]>
           (channels s);
       next_channel := next_channel s; worker := AtAcquire;
       trace := trace s ++ [EvGet r; EvBegin r; EvEnd r;
                            EvReply (reply r) v] |}.
Proof.
  intros Hnext Hne Hattr Hcall.
  change 4 with (2 + 2). rewrite run_worker_add.
  rewrite (take_next_request s r Hnext). unfold dispatch.
  apply String.eqb_neq in Hne. rewrite Hne. cbn [_db]. rewrite Hattr.
  rewrite run_worker_S. unfold worker_step at 1. cbn [worker _db].
  rewrite Hcall. rewrite run_worker_S. unfold worker_step at 1.
  cbn [worker run_worker channels trace _db _queue _stopped next_channel].
  by rewrite <- !app_assoc.
Qed.

Lemma serves_queue (q : list request) (s : t) :
  _queue s = q ->
  worker s = AtAcquire -> _lock s = false -> _stopped s = false ->
  Forall answerable q ->
  let s' := run_worker (4 * length q) s in
  _queue s' = [] /\ worker s' = AtAcquire /\ _lock s' = false /\
  gets (trace s') = gets (trace s) ++ q /\
  begins (trace s') = begins (trace s) ++ q /\
  replied (trace s') = replied (trace s) ++ (reply <$> q).
Proof.
  revert s. induction q as [|r rest IH]; intros s Hq Hw Hl Hs Hall.
  { simpl. by rewrite !app_nil_r. }
  apply Forall_cons in Hall as [(Hne & f & Hattr & Hret) Hall].
  destruct (f (args r) (kwargs r) (_db s)) as [out store] eqn:Hcall.
  destruct (Hret (_db s)) as [v Hv]. rewrite Hcall in Hv. simpl in Hv.
  subst out.
  assert (Hnext : next_request s r).
  { repeat split; try done. by rewrite Hq. }
  pose proof (returning_call_steps s r f v store Hnext Hne (Hattr _) Hcall)
    as Hrun.
  replace (4 * length (r :: rest)) with (4 + 4 * length rest)
    by (simpl; lia).
  rewrite run_worker_add, Hrun.
  match goal with |- context [run_worker _ ?x] => set (s1 := x) end.
  destruct (IH s1) as (Hq' & Hw' & Hl' & Hg & Hb & Hr); try done.
  { unfold s1. cbn [_queue]. by rewrite Hq. }
  cbv zeta. rewrite Hq', Hw', Hl', Hg, Hb, Hr.
  unfold s1, gets, begins, replied. cbn [trace].
  rewrite !omap_app. cbn [omap list_omap fmap list_fmap].
  by rewrite <- !app_assoc.
Qed.

(** Progress.  When the worker stands at the top of its loop with the
    lock free and every queued request names a method that the store has
    and that returns, four steps per request serve the whole queue: every
    request is taken, called and answered, in the order of the queue, and
    the worker is back at the top of its loop with the lock free. *)
Theorem worker_serves_every_answerable_request (s : t) :
  worker s = AtAcquire -> _lock s = false -> _stopped s = false ->
  Forall answerable (_queue s) ->
  let s' := run_worker (4 * length (_queue s)) s in
  _queue s' = [] /\ worker s' = AtAcquire /\ _lock s' = false /\
  gets (trace s') = gets (trace s) ++ _queue s /\
  begins (trace s') = begins (trace s) ++ _queue s /\
  replied (trace s') = replied (trace s) ++ (reply <$> _queue s).
Proof. intros. by apply serves_queue. Qed.

(** ** [close] on the calling thread *)

(** [close] calls the store's [close] itself, outside the worker, and
    asks the worker to end only when that call has returned: when the
    store has no [close], or its [close] raises, the exception reaches
    the caller and nothing is put on the queue.  On a wrapper whose
    [_stopped] is set, [close] closes the store once more and returns at
    once. *)
Theorem close_calls_the_store_directly (s : t) :
  (db_getattr (_db s) "close" = None ->
   close s = (Raise (AttributeError "close"), s)) /\
  (forall f a store,
     db_getattr (_db s) "close" = Some (Method f) ->
     f [] [] (_db s) = (Raises a, store) ->
     exists e s', close s = (Raise e, s') /\
       _db s' = store /\ _queue s' = _queue s /\
       trace s' = trace s ++ [EvDirect "close"]) /\
  (forall f v store,
     db_getattr (_db s) "close" = Some (Method f) ->
     f [] [] (_db s) = (Returns v, store) ->
     exists s',
       snd (close s) = (if _stopped s then s' else
                          queue_put end_thread_attribute [] [] s') /\
       fst (close s) = Ok (if _stopped s then None
                           else Some (next_channel s)) /\
       _db s' = store /\ _queue s' = _queue s /\
       trace s' = trace s ++ [EvDirect "close"]).
Proof.
  unfold close, direct_call. repeat split.
  - by intros ->.
  - intros f a store -> ->. by eexists _, _.
  - intros f v store -> ->. unfold __proxied_mth. cbn [_stopped].
    exists {| _db := store; _queue := _queue s; _stopped := _stopped s;
              _lock := _lock s; channels := channels s;
              next_channel := next_channel s; worker := worker s;
              trace := trace s ++ [EvDirect "close"] |}.
    destruct (_stopped s); by repeat split.
Qed.

End ProxyFacts.

(** * The properties on concrete inputs *)

Section Instances.

Import GPG Spec Toy.
Local Open Scope list_scope.

(** ** The toy provider is lawful *)

Lemma toy_strip_app (p d : string) : strip p (p +:+ d) = Some d.
Proof.
  induction p as [|c p IH]; simpl; [done|]. by rewrite Ascii.eqb_refl.
Qed.

Lemma toy_symmetric_round_trip : symmetric_round_trip provider.
Proof. intros kr data rcpt sign p. simpl. by rewrite toy_strip_app. Qed.

(** ** Key lifecycle manager *)

(** C1 on [alice] with her secret loaded: document [doc-1], data
    [hello]. *)
Lemma C1_witness :
  symmetric_round_trip provider /\
  Soledad.READY alice_ready /\
  exists c,
    Soledad.encrypt_symmetric "doc-1" "hello" None ready_state
      = (Ok c, ready_state) /\
    Soledad.decrypt_symmetric "doc-1" c ready_state
      = (Ok "hello", ready_state).
Proof.
  assert (Hready : Soledad.READY alice_ready).
  { repeat split; by eexists. }
  split; [exact toy_symmetric_round_trip|]. split; [exact Hready|].
  destruct (C1_symmetric_round_trip toy_symmetric_round_trip ready_state
              "doc-1" "hello" None Hready)
    as (fp & secret & c & _ & _ & _ & Henc & Hdec).
  exists c. by split.
Defined.

(** C6 as stated fails on [alice] with the wrapper bound and no
    fingerprint cached, her own blob being on disk: the file exists, it
    is asymmetrically encrypted and there is no cached fingerprint for it
    to differ from, yet the secret is not loaded. *)
Lemma C6_counterexample : ~ load_secret_as_specified bound_state.
Proof.
  intros (_ & _ & _ & [Hload _]).
  destruct Hload as (st' & secret & Hrun & _).
  - split; [discriminate|]. split.
    + intros (c & Hc & Ha). vm_compute in Hc.
      injection Hc as <-. vm_compute in Ha. discriminate Ha.
    + intros (c & fp & _ & _ & Hf & _). discriminate Hf.
  - vm_compute in Hrun. discriminate Hrun.
Qed.

(** C6 as amended, on [alice] with her fingerprint cached and her own
    blob on disk: the secret is loaded. *)
Lemma C6_witness :
  Soledad.files alice_world !! Soledad.secret_path alice_keyed
    = Some alice_blob /\
  Soledad._gpg alice_keyed = Some "/home/alice/gnupg" /\
  Soledad._fingerprint alice_keyed = Some "FP-alice@leap.se" /\
  exists st',
    Soledad._load_secret keyed_state = (Ok tt, st') /\
    Soledad._secret (Soledad.self st') = Some "s3cr3t" /\
    Soledad.world st' = alice_world.
Proof.
  split; [reflexivity|]. split; [reflexivity|]. split; [reflexivity|].
  destruct (C6_load_secret_cases keyed_state) as (_ & _ & _ & Hload & _).
  destruct (Hload alice_blob "/home/alice/gnupg" "FP-alice@leap.se"
              eq_refl eq_refl eq_refl eq_refl eq_refl)
    as (st' & Hrun & Hsecret & _ & _ & _ & _ & _ & _ & Hworld).
  exists st'. split; [exact Hrun|]. split; [exact Hsecret|]. exact Hworld.
Defined.

(** C5 as stated fails on a secret file that is plain text: no valid blob
    exists, yet nothing is generated. *)
Lemma C5_counterexample : ~ generate_secret_as_specified plaintext_state.
Proof.
  intros [_ Hgen].
  destruct (Hgen eq_refl) as (st' & secret & fp & Hrun & _).
  vm_compute in Hrun. discriminate Hrun.
Qed.

(** C5 as amended, on [alice] with her fingerprint cached: her own blob
    on disk is a conflict; in her empty directory a secret is generated
    and written; on a disk without her directory the secret is generated
    and [IOError] raised. *)
Lemma C5_witness :
  Soledad._gpg alice_keyed = Some "/home/alice/gnupg" /\
  Soledad._fingerprint alice_keyed = Some "FP-alice@leap.se" /\
  Soledad._gen_secret keyed_state = (Raise KeyAlreadyExists, keyed_state) /\
  (exists st' secret,
     Soledad._gen_secret keyed_home_state = (Ok tt, st') /\
     Soledad._secret (Soledad.self st') = Some secret /\
     Soledad.files (Soledad.world st') !! "/home/alice/secret.gpg"
       = Some (String "A" ("FP-alice@leap.se" +:+ "|" +:+ secret))) /\
  (exists st',
     Soledad._gen_secret keyed_blank_state = (Raise IOError, st') /\
     Soledad.files (Soledad.world st') = ∅).
Proof.
  split; [reflexivity|]. split; [reflexivity|].
  destruct (C5_gen_secret_cases keyed_state "/home/alice/gnupg"
              "FP-alice@leap.se" eq_refl eq_refl)
    as (Hvalid & _).
  destruct (C5_gen_secret_cases keyed_home_state "/home/alice/gnupg"
              "FP-alice@leap.se" eq_refl eq_refl)
    as (_ & Hgen & _).
  destruct (C5_gen_secret_cases keyed_blank_state "/home/alice/gnupg"
              "FP-alice@leap.se" eq_refl eq_refl)
    as (_ & _ & Hfail & _).
  split; [exact (Hvalid alice_blob eq_refl eq_refl eq_refl)|].
  split.
  - destruct (Hgen eq_refl eq_refl)
      as (_ & _ & st' & Hrun & Hsecret & _ & Hfiles & _).
    exists st'. eexists. split; [exact Hrun|]. split; [exact Hsecret|].
    rewrite Hfiles. reflexivity.
  - destruct (Hfail eq_refl eq_refl) as (st' & Hrun & _ & Hfiles & _).
    exists st'. split; [exact Hrun | exact Hfiles].
Defined.

(** C3 on a freshly constructed [alice] whose keypair and secret are on
    disk. *)
Lemma C3_witness :
  Soledad._fingerprint alice = None /\
  is_Some (find_key_by_email (Soledad.keyring alice_world)
             (Soledad._user_email alice) true) /\
  Soledad.files alice_world !! Soledad.secret_path alice
    = Some alice_blob /\
  GPG.is_encrypted_asym (Soledad.keyring alice_world) alice_blob = true /\
  exists st',
    Soledad._bootstrap fresh_state
      = (Raise (AttributeError "_fingerprint"), st').
Proof.
  assert (Hkey : is_Some (find_key_by_email (Soledad.keyring alice_world)
                            (Soledad._user_email alice) true)).
  { by eexists. }
  split; [reflexivity|]. split; [exact Hkey|]. split; [reflexivity|].
  split; [reflexivity|].
  destruct (C3_bootstrap_with_local_keys_raises fresh_state alice_blob
              eq_refl Hkey eq_refl eq_refl) as (st' & Hrun & _).
  by exists st'.
Defined.

(** The same disk, once the fingerprint is cached: the bootstrap gets
    through, and calls neither the remote collaborator nor a
    generator. *)
Example bootstrap_with_cached_fingerprint :
  exists st',
    Soledad._bootstrap keyed_state = (Ok tt, st') /\
    Soledad._fingerprint (Soledad.self st') = Some "FP-alice@leap.se" /\
    Soledad._secret (Soledad.self st') = Some "s3cr3t" /\
    Soledad.calls (Soledad.world st') = [].
Proof. eexists. split; [vm_compute; reflexivity|]. by repeat split. Qed.

(** C7 on a fresh [alice] and an empty disk; there is no client, so the
    retrieval raises. *)
Lemma C7_witness :
  find_key_by_email (Soledad.keyring empty_world)
    (Soledad._user_email alice) true = None /\
  retrieval_raises alice /\
  exists e st', Soledad._bootstrap blank_state = (Raise e, st').
Proof.
  split; [reflexivity|]. split; [exact I|].
  destruct (C7_bootstrap_fallback_raises blank_state eq_refl I)
    as (_ & e & st' & l & Hrun & _).
  by exists e, st'.
Defined.

(** On that input the keypair and the secret are generated, and then the
    missing method stops the bootstrap. *)
Example bootstrap_on_empty_disk :
  exists st',
    Soledad._bootstrap blank_state
      = (Raise (AttributeError "_send_keys"), st') /\
    Soledad._db (Soledad.self st') = None /\
    map (fun c => match c with
                  | Soledad.GenKey _ => "gen_key"
                  | Soledad.RandomChoice => "random"
                  | Soledad.WriteFile _ => "write"
                  | Soledad.RemoteRequest _ _ => "remote"
                  end) (Soledad.calls (Soledad.world st'))
      = ["gen_key"; "random"; "write"].
Proof. eexists. split; [vm_compute; reflexivity|]. by split. Qed.

(** C4 on [Soledad('alice@leap.se', prefix='/home/alice')]. *)
Lemma C4_witness :
  Soledad.arg_initialize alice_args = true /\
  Soledad.__init__ alice_args empty_world
    = (Raise (AttributeError "bootstrap"), empty_world).
Proof.
  split; [reflexivity|].
  destruct (C4_constructor_always_raises alice_args empty_world eq_refl)
    as (_ & _ & e & Hrun & He).
  rewrite Hrun. by rewrite (He _ eq_refl eq_refl).
Defined.

(** ** Serialized store proxy *)

Import SQLCipherWrapper.

(** The name [close] asks for is the mangled one. *)
Example end_thread_attribute_is_mangled :
  end_thread_attribute = "_SQLCipherWrapper__end_thread".
Proof. reflexivity. Qed.

(** Two callers, one document each: the documents land in the order of
    the queue, both callers are answered, nothing is left over. *)
Example two_callers_are_served_in_order :
  let s := run_schedule two_callers wrapper0 in
  _db s = [VStr "a"; VStr "b"] /\
  replied (trace s) = [0; 1] /\
  _queue s = [] /\ _lock s = false /\ worker s = AtAcquire.
Proof. vm_compute. by repeat split. Qed.

(** C9 as stated fails on a call that raises with a message: the reply
    channel of the request receives [None]. *)
Lemma C9_counterexample :
  ~ exception_gives_no_reply failing_call_state failing_request.
Proof.
  intros H.
  assert (Hnext : next_request failing_call_state failing_request).
  { by repeat split. }
  specialize (H (fail_with [VStr "no such document"])
                [VStr "no such document"] [] Hnext eq_refl eq_refl 4).
  vm_compute in H. discriminate H.
Qed.

(** C9 as amended, on the same call: [None] is what arrives. *)
Lemma C9_witness :
  next_request failing_call_state failing_request /\
  mth failing_request <> end_thread_literal /\
  db_getattr (_db failing_call_state) (mth failing_request)
    = Some (Method (fail_with [VStr "no such document"])) /\
  fail_with [VStr "no such document"] (args failing_request)
    (kwargs failing_request) (_db failing_call_state)
    = (Raises [VStr "no such document"], []) /\
  exists s'',
    channel_get 0 (run_worker 4 failing_call_state) = Some (VNone, s'').
Proof.
  assert (Hnext : next_request failing_call_state failing_request).
  { by repeat split. }
  assert (Hne : mth failing_request <> end_thread_literal) by done.
  split; [exact Hnext|]. split; [exact Hne|].
  split; [reflexivity|]. split; [reflexivity|].
  destruct (C9_exception_is_answered_with_none failing_call_state
              failing_request (fail_with [VStr "no such document"])
              (VStr "no such document") [] [] Hnext Hne eq_refl eq_refl)
    as (_ & _ & _ & _ & _ & Hget).
  exact (Hget eq_refl).
Defined.

(** C10 as stated fails on the end-of-thread sentinel: it is not an
    attribute of the store, and the worker leaves its loop and
    terminates. *)
Lemma C10_counterexample :
  ~ unknown_method_deadlocks end_thread_state end_thread_request.
Proof.
  intros H.
  assert (Hnext : next_request end_thread_state end_thread_request).
  { by repeat split. }
  destruct (H Hnext eq_refl 2 (le_n 2)) as (Hw & _).
  vm_compute in Hw. discriminate Hw.
Qed.

(** C10 as amended, on a request for a method the store does not
    have. *)
Lemma C10_witness :
  next_request unknown_call_state unknown_request /\
  mth unknown_request <> end_thread_literal /\
  db_getattr (_db unknown_call_state) (mth unknown_request) = None /\
  deadlocked (run_worker 2 unknown_call_state) /\
  never_serves_again (run_worker 2 unknown_call_state).
Proof.
  assert (Hnext : next_request unknown_call_state unknown_request).
  { by repeat split. }
  assert (Hne : mth unknown_request <> end_thread_literal) by done.
  split; [exact Hnext|]. split; [exact Hne|]. split; [reflexivity|].
  destruct (C10_unknown_method_deadlocks_worker unknown_call_state
              unknown_request Hnext Hne eq_refl)
    as (_ & Hd & _ & _ & Hnever).
  by split.
Defined.

(** C8 on a wrapper over the empty store. *)
Lemma C8_witness :
  db_getattr (Store := store) [] "close" = Some (Method close_store) /\
  close_store [] [] [] = (Returns VNone, []) /\
  db_getattr (Store := store) [] end_thread_attribute = None /\
  exists s1,
    close wrapper0 = (Ok (Some 0), s1) /\
    _stopped (run_worker 2 s1) = false /\
    never_serves_again (run_worker 2 s1) /\
    __proxied_mth "put_doc" [VStr "a"] [] (run_worker 2 s1)
      = (Some 1, queue_put "put_doc" [VStr "a"] [] (run_worker 2 s1)).
Proof.
  split; [reflexivity|]. split; [reflexivity|]. split; [reflexivity|].
  destruct (C8_close_leaves_flag_clear_and_worker_stuck (ST := store)
              [] [] close_store VNone eq_refl eq_refl eq_refl)
    as (_ & s1 & Hclose & _ & _ & _ & Hs & _ & Hnever & Hlater).
  exists s1. split; [exact Hclose|]. split; [exact Hs|].
  split; [exact Hnever|]. apply Hlater.
Defined.

(** ** Further properties, on concrete inputs *)

Lemma has_keys_without_keypair_witness :
  Soledad._gpg alice_bound = Some "/home/alice/gnupg" /\
  find_key_by_email (Soledad.keyring empty_world)
    (Soledad._user_email alice_bound) true = None /\
  Soledad._has_keys bound_blank_state = (Ok false, bound_blank_state).
Proof.
  split; [reflexivity|]. split; [reflexivity|].
  exact (has_keys_without_keypair bound_blank_state "/home/alice/gnupg"
           eq_refl eq_refl).
Defined.

Lemma bootstrap_needs_cached_fingerprint_witness :
  Soledad._fingerprint alice = None /\
  exists e st', Soledad._bootstrap fresh_state = (Raise e, st').
Proof.
  split; [reflexivity|].
  exact (bootstrap_needs_cached_fingerprint fresh_state eq_refl).
Defined.

Lemma bootstrap_loads_local_keys_witness :
  Soledad._fingerprint alice_keyed = Some "FP-alice@leap.se" /\
  is_Some (find_key_by_email (Soledad.keyring alice_world)
             (Soledad._user_email alice_keyed) true) /\
  find_key_by_email (Soledad.keyring alice_world)
    (Soledad._user_email alice_keyed) false
    = Some {| fingerprint := "FP-alice@leap.se" |} /\
  Soledad.files alice_world !! Soledad.secret_path alice_keyed
    = Some alice_blob /\
  GPG.is_encrypted_asym (Soledad.keyring alice_world) alice_blob = true /\
  fingerprint (encrypted_to (Soledad.keyring alice_world) alice_blob)
    = "FP-alice@leap.se" /\
  exists st',
    Soledad._bootstrap keyed_state = (Ok tt, st') /\
    Soledad._secret (Soledad.self st') = Some "s3cr3t".
Proof.
  assert (Hkey : is_Some (find_key_by_email (Soledad.keyring alice_world)
                            (Soledad._user_email alice_keyed) true)).
  { by eexists. }
  split; [reflexivity|]. split; [exact Hkey|]. split; [reflexivity|].
  split; [reflexivity|]. split; [reflexivity|]. split; [reflexivity|].
  destruct (bootstrap_loads_local_keys keyed_state "FP-alice@leap.se"
              alice_blob {| fingerprint := "FP-alice@leap.se" |}
              eq_refl Hkey eq_refl eq_refl eq_refl eq_refl eq_refl)
    as (st' & Hrun & _ & _ & Hsecret & _).
  exists st'. by split.
Defined.

Lemma constructor_returns_bare_instance_witness :
  Soledad.__init__ alice_args_lazy empty_world = (Ok alice, empty_world) /\
  Soledad.arg_initialize alice_args_lazy = false /\
  Soledad._fingerprint alice = None /\
  forall w, exists e st',
    Soledad._bootstrap {| Soledad.self := alice; Soledad.world := w |}
      = (Raise e, st').
Proof.
  assert (Hinit : Soledad.__init__ alice_args_lazy empty_world
                  = (Ok alice, empty_world)) by reflexivity.
  split; [exact Hinit|].
  destruct (constructor_returns_bare_instance alice_args_lazy empty_world
              empty_world alice Hinit)
    as (Hlazy & _ & _ & _ & _ & _ & _ & Hf & _ & _ & Hboot).
  by repeat split.
Defined.

Lemma init_config_prefix_witness :
  str_or (Soledad.arg_prefix alice_args_lazy) "" = "/home/alice" /\
  Soledad._init_config alice_args_lazy empty_world = Ok alice /\
  Soledad.prefix alice = "/home/alice".
Proof.
  split; [reflexivity|].
  assert (Hconf : Soledad._init_config alice_args_lazy empty_world
                  = Ok alice) by reflexivity.
  split; [exact Hconf|].
  destruct (init_config_prefix alice_args_lazy empty_world) as [Hp _].
  exact (Hp alice Hconf).
Defined.

Lemma init_config_reads_no_file_setting_witness :
  Soledad._init_config alice_args_lazy empty_world = Ok alice /\
  exists sections,
    config_sections
      (Soledad.files empty_world !! Soledad.config_file alice)
      = Ok sections /\
    existsb (String.eqb "soledad-client") sections = false.
Proof.
  assert (Hconf : Soledad._init_config alice_args_lazy empty_world
                  = Ok alice) by reflexivity.
  split; [exact Hconf|].
  exact (init_config_reads_no_file_setting alice_args_lazy empty_world
           alice Hconf).
Defined.

Lemma init_config_secret_path_witness :
  Soledad._init_config alice_args_lazy empty_world = Ok alice /\
  Soledad.arg_secret_path alice_args_lazy = None /\
  percent_format "%s/secret.gpg" (Soledad.prefix alice)
    = Ok (Soledad.secret_path alice).
Proof.
  assert (Hconf : Soledad._init_config alice_args_lazy empty_world
                  = Ok alice) by reflexivity.
  split; [exact Hconf|]. split; [reflexivity|].
  destruct (init_config_secret_path alice_args_lazy empty_world alice
              Hconf) as [_ Hdefault].
  exact (Hdefault eq_refl).
Defined.

Lemma gen_openpgp_keypair_cases_witness :
  Soledad._gpg alice_bound = Some "/home/alice/gnupg" /\
  Soledad._gen_openpgp_keypair bound_state
    = (Raise KeyAlreadyExists, bound_state).
Proof.
  split; [reflexivity|].
  destruct (gen_openpgp_keypair_cases bound_state "/home/alice/gnupg"
              eq_refl) as [Hconflict _].
  apply Hconflict. by eexists.
Defined.

Lemma load_openpgp_keypair_cases_witness :
  Soledad._gpg alice_bound = Some "/home/alice/gnupg" /\
  Soledad._load_openpgp_keypair bound_state = (Ok tt, keyed_state).
Proof.
  split; [reflexivity|].
  destruct (load_openpgp_keypair_cases bound_state "/home/alice/gnupg"
              eq_refl) as [_ Hload].
  apply (Hload {| fingerprint := "FP-alice@leap.se" |});
    [by eexists | reflexivity].
Defined.

Lemma gen_keys_never_loads_the_fingerprint_witness :
  Soledad._gpg alice_bound = Some "/home/alice/gnupg" /\
  Soledad._fingerprint alice_bound = None /\
  find_key_by_email (Soledad.keyring empty_world)
    (Soledad._user_email alice_bound) true = None /\
  Soledad.files empty_world !! Soledad.secret_path alice_bound = None /\
  exists st',
    Soledad._gen_keys bound_blank_state
      = (Raise (AttributeError "_fingerprint"), st') /\
    Soledad.files (Soledad.world st') = Soledad.files empty_world.
Proof.
  split; [reflexivity|]. split; [reflexivity|]. split; [reflexivity|].
  split; [reflexivity|].
  destruct (gen_keys_never_loads_the_fingerprint bound_blank_state
              "/home/alice/gnupg" eq_refl eq_refl eq_refl eq_refl)
    as (st' & Hrun & _ & _ & Hfiles).
  exists st'. by split.
Defined.

Lemma init_keys_generates_and_loads_witness :
  Soledad._gpg alice_bound = Some "/home/alice/gnupg" /\
  find_key_by_email (Soledad.keyring home_world)
    (Soledad._user_email alice_bound) true = None /\
  Soledad.files home_world !! Soledad.secret_path alice_bound = None /\
  Soledad.can_open_for_writing (Soledad.dirs home_world)
    (Soledad.secret_path alice_bound) = true /\
  exists st',
    Soledad._init_keys bound_home_state = (Ok tt, st') /\
    Soledad._fingerprint (Soledad.self st') = Some "FP-alice@leap.se" /\
    Soledad._secret (Soledad.self st')
      = Some "dkryFMT07elszGNU18fmtAHOV29gnuBIPW3ahovCJQX4bipwDK".
Proof.
  split; [reflexivity|]. split; [reflexivity|]. split; [reflexivity|].
  split; [reflexivity|].
  destruct (init_keys_generates_and_loads bound_home_state
              "/home/alice/gnupg"
              {| fingerprint := "FP-alice@leap.se" |}
              {| fingerprint := "FP-alice@leap.se" |}
              eq_refl eq_refl eq_refl eq_refl eq_refl eq_refl eq_refl
              eq_refl)
    as (st' & Hrun & Hfp & Hsecret & _).
  exists st'. split; [exact Hrun|]. split; [exact Hfp|]. exact Hsecret.
Defined.

Lemma call_returns_its_result_witness :
  next_request put_state put_request /\
  mth put_request <> end_thread_literal /\
  db_getattr (_db put_state) (mth put_request) = Some (Method put_doc) /\
  put_doc (args put_request) (kwargs put_request) (_db put_state)
    = (Returns (VInt 0), [VStr "a"]) /\
  channels put_state !! reply put_request = Some [] /\
  exists s'',
    channel_get 0 (run_worker 4 put_state) = Some (VInt 0, s'') /\
    _db s'' = [VStr "a"].
Proof.
  assert (Hnext : next_request put_state put_request).
  { by repeat split. }
  assert (Hne : mth put_request <> end_thread_literal) by done.
  split; [exact Hnext|]. split; [exact Hne|].
  split; [reflexivity|]. split; [reflexivity|]. split; [reflexivity|].
  destruct (call_returns_its_result put_state put_request put_doc
              (VInt 0) [VStr "a"] Hnext Hne eq_refl eq_refl eq_refl)
    as (_ & _ & _ & _ & _ & Hget).
  exact Hget.
Defined.

Lemma attribute_read_returns_its_value_witness :
  next_request path_state path_request /\
  mth path_request <> end_thread_literal /\
  db_getattr (_db path_state) (mth path_request)
    = Some (Plain (VStr "/home/alice/soledad.u1db")) /\
  truthy (VStr "/home/alice/soledad.u1db") = true /\
  channels (run_worker 3 path_state) !! 0
    = Some [VStr "/home/alice/soledad.u1db"].
Proof.
  assert (Hnext : next_request path_state path_request).
  { by repeat split. }
  assert (Hne : mth path_request <> end_thread_literal) by done.
  split; [exact Hnext|]. split; [exact Hne|].
  split; [reflexivity|]. split; [reflexivity|].
  destruct (attribute_read_returns_its_value path_state path_request
              (VStr "/home/alice/soledad.u1db") Hnext Hne eq_refl eq_refl)
    as (_ & _ & _ & _ & Hch).
  exact Hch.
Defined.

Lemma falsy_attribute_is_taken_for_missing_witness :
  next_request count_state count_request /\
  mth count_request <> end_thread_literal /\
  db_getattr (Store := counter) (_db count_state) (mth count_request)
    = Some (Plain (VInt 0)) /\
  truthy (VInt 0) = false /\
  deadlocked (run_worker 2 count_state) /\
  channels (run_worker 2 count_state) = channels count_state.
Proof.
  assert (Hnext : next_request count_state count_request).
  { by repeat split. }
  assert (Hne : mth count_request <> end_thread_literal) by done.
  split; [exact Hnext|]. split; [exact Hne|].
  split; [reflexivity|]. split; [reflexivity|].
  destruct (falsy_attribute_is_taken_for_missing count_state count_request
              (VInt 0) Hnext Hne eq_refl eq_refl)
    as (Hd & Hc & _).
  by split.
Defined.

Lemma bare_exception_kills_the_worker_witness :
  next_request sync_state sync_request /\
  mth sync_request <> end_thread_literal /\
  db_getattr (_db sync_state) (mth sync_request)
    = Some (Method (fail_with [])) /\
  fail_with [] (args sync_request) (kwargs sync_request) (_db sync_state)
    = (Raises [], []) /\
  worker (run_worker 3 sync_state) = Crashed /\
  _lock (run_worker 3 sync_state) = true /\
  stopped_for_good (run_worker 3 sync_state).
Proof.
  assert (Hnext : next_request sync_state sync_request).
  { by repeat split. }
  assert (Hne : mth sync_request <> end_thread_literal) by done.
  split; [exact Hnext|]. split; [exact Hne|].
  split; [reflexivity|]. split; [reflexivity|].
  destruct (bare_exception_kills_the_worker sync_state sync_request
              (fail_with []) [] Hnext Hne eq_refl eq_refl)
    as (Hw & Hl & _ & _ & _ & _ & Hgood).
  split; [exact Hw|]. split; [exact Hl|]. exact Hgood.
Defined.

Lemma end_thread_request_stops_the_worker_witness :
  next_request end_thread_state end_thread_request /\
  mth end_thread_request = end_thread_literal /\
  worker (run_worker 2 end_thread_state) = Finished /\
  _stopped (run_worker 2 end_thread_state) = true /\
  channels (run_worker 2 end_thread_state) !! 0 = Some [] /\
  fst (__proxied_mth "put_doc" [VStr "a"] [] (run_worker 2 end_thread_state))
    = None.
Proof.
  assert (Hnext : next_request end_thread_state end_thread_request).
  { by repeat split. }
  split; [exact Hnext|]. split; [reflexivity|].
  destruct (end_thread_request_stops_the_worker end_thread_state
              end_thread_request Hnext eq_refl)
    as (Hw & Hs & _ & Hc & _ & _ & _ & Hlater).
  split; [exact Hw|]. split; [exact Hs|]. split; [by rewrite Hc|].
  by rewrite Hlater.
Defined.

Lemma callers_never_touch_the_store_witness :
  forallb is_proxied callers_only = true /\
  _db (run_schedule callers_only wrapper0) = [] /\
  replied (trace (run_schedule callers_only wrapper0)) = [].
Proof.
  split; [reflexivity|].
  destruct (callers_never_touch_the_store wrapper0 callers_only eq_refl)
    as (Hd & _ & _ & _ & _ & Hr & _).
  by split.
Defined.

Lemma worker_serves_every_answerable_request_witness :
  worker two_puts_state = AtAcquire /\
  _lock two_puts_state = false /\
  _stopped two_puts_state = false /\
  Forall answerable (_queue two_puts_state) /\
  _queue (run_worker 8 two_puts_state) = [] /\
  replied (trace (run_worker 8 two_puts_state)) = [0; 1].
Proof.
  assert (Hput : forall a q,
            answerable {| mth := "put_doc"; reply := q; args := a;
                          kwargs := [] |}).
  { intros a q. split; [done|]. exists put_doc.
    split; [done|]. intros d. by eexists. }
  assert (Hall : Forall answerable (_queue two_puts_state)).
  { repeat constructor; apply Hput. }
  split; [reflexivity|]. split; [reflexivity|]. split; [reflexivity|].
  split; [exact Hall|].
  destruct (worker_serves_every_answerable_request two_puts_state
              eq_refl eq_refl eq_refl Hall)
    as (Hq & _ & _ & _ & _ & Hr).
  split; [exact Hq|exact Hr].
Defined.

End Instances.
